(** * wa-mobile-scheduler: the scheduled-delivery core of the server

    A shallow embedding of the three route handlers and of the timer
    callback of the scheduler, in its two copies:

    - [ServerJs]: src/server.js (the file the Dockerfile starts);
    - [Part000]:  src/unnamed/part_000 (the commented copy, which also
      checks the form fields and words its answers differently).

    Node runs every handler and every timer callback to completion on
    one thread, so the program is a transition system whose steps are the
    atomic pieces of JavaScript between two returns to the event loop:
    a POST /api/schedule handler, a POST /api/cancel handler, the part of
    a timer callback up to its [await], the part after it, and the
    completion of an asynchronous [fs.unlink].  Each piece is written in a
    small state monad over the process state.

    What is taken from the environment:
    - the form fields and the [id] of a cancel are strings or absent;
    - [Date.now()] reads the same in multer's [filename] and in the
      handler that runs right after it;
    - [path.join] is concatenation with "/", [MessageMedia.fromFilePath]
      succeeds on a file that exists, and an unlink of an existing file
      succeeds;
    - [Date.parse] is a parameter of the program, as is [__dirname].
    The route /api/groups, the client events and [console.log] play no
    part in scheduling and are left out. *)

From Stdlib Require Import ZArith Lia Ascii.
From stdpp Require Import base option list strings gmap pretty.

Open Scope string_scope.
Open Scope Z_scope.

(** ** Data *)

(** The two copies of the program. *)
Inductive version := ServerJs | Part000.

(** A form field of the multipart body, or the [id] of the JSON body of
    /api/cancel: a string, or [None] for JavaScript's [undefined] (the
    field is absent).  Keys of the [scheduledTasks] Map are such values:
    [Map] accepts [undefined] as a key. *)
Abbreviation jsstr := (option string).

(** A JavaScript number that is an integer or NaN ([None]).  The program
    computes with millisecond time stamps only. *)
Abbreviation number := (option Z).

(** [req.body] and [req.file] of POST /api/schedule, before multer has
    stored the file: [image] is the original name of the uploaded part
    named 'image', when there is one. *)
Record ScheduleReq := {
  groupId : jsstr;
  scheduleTime : jsstr;
  uiId : jsstr;
  image : option string
}.

(** What the timer callback closes over: [file.path], [groupId], [uiId]. *)
Record Callback := {
  cb_path : string;
  cb_groupId : jsstr;
  cb_uiId : jsstr
}.

(** An armed timer: the clock reading from which it may fire, and its
    callback. *)
Record Timer := {
  due : Z;
  callback : Callback
}.

(** The value stored in [scheduledTasks]: [{ timeout, filePath }]. *)
Record Task := {
  timeout : nat;
  filePath : string
}.

(** The payload of an [io.emit]. *)
Inductive Emit :=
| message_sent (id : jsstr) (status : jsstr).

(** The JSON bodies the handlers answer with. *)
Inductive Body :=
| body_error (error : string)
| body_scheduled (status : string) (id : jsstr)
| body_status (status : string).

Record Response := {
  res_status : Z;
  res_body : Body
}.

(** The process state. *)
Record State := {
  scheduledTasks : gmap jsstr Task;   (* const scheduledTasks = new Map() *)
  disk : gset string;                 (* the files that exist *)
  timers : gmap nat Timer;            (* armed timers, by handle *)
  next_timer : nat;                   (* the next handle setTimeout returns *)
  sending : gmap nat Callback;        (* callbacks suspended at await client.sendMessage *)
  calls : list (jsstr * string);      (* client.sendMessage(groupId, media of path) calls made *)
  delivered : list (jsstr * string);  (* the calls that resolved *)
  unlinking : list string;            (* fs.unlink operations issued, not yet performed *)
  emitted : list Emit;                (* io.emit('message_sent', ...) *)
  errors : list (jsstr * string);    (* console.error in the callback's catch *)
  clock : Z                           (* Date.now() *)
}.

#[export] Instance version_eq_dec : EqDecision version.
Proof. solve_decision. Defined.
#[export] Instance Callback_eq_dec : EqDecision Callback.
Proof. solve_decision. Defined.
#[export] Instance Timer_eq_dec : EqDecision Timer.
Proof. solve_decision. Defined.
#[export] Instance Task_eq_dec : EqDecision Task.
Proof. solve_decision. Defined.
#[export] Instance Emit_eq_dec : EqDecision Emit.
Proof. solve_decision. Defined.
#[export] Instance Body_eq_dec : EqDecision Body.
Proof. solve_decision. Defined.
#[export] Instance Response_eq_dec : EqDecision Response.
Proof. solve_decision. Defined.

Definition init : State := {|
  scheduledTasks := ∅; disk := ∅; timers := ∅; next_timer := 0%nat;
  sending := ∅; calls := []; delivered := []; unlinking := [];
  emitted := []; errors := []; clock := 0
|}.

(** ** The state monad of the handlers *)

Definition M (A : Type) : Type := State → A * State.

Definition ret {A} (a : A) : M A := λ s, (a, s).
Definition bind {A B} (m : M A) (k : A → M B) : M B :=
  λ s, let '(a, s') := m s in k a s'.

Declare Scope js_scope.
Delimit Scope js_scope with js.
Notation "'let!' x ':=' m 'in' k" := (bind m (λ x, k))
  (at level 10, x name, m at level 100, k at level 200) : js_scope.
Notation "m ';;;' k" := (bind m (λ _, k))
  (at level 100, k at level 200, right associativity) : js_scope.
Open Scope js_scope.

(** *** The primitives the program calls *)

(** [Date.now()] *)
Definition Date_now : M Z := λ s, (clock s, s).

(** [fs.existsSync(p)] *)
Definition fs_existsSync (p : string) : M bool :=
  λ s, (bool_decide (p ∈ disk s), s).

(** [fs.unlinkSync(p)]: the file is gone when the call returns. *)
Definition fs_unlinkSync (p : string) : M unit := λ s,
  (tt, {| scheduledTasks := scheduledTasks s; disk := disk s ∖ {[p]};
          timers := timers s; next_timer := next_timer s;
          sending := sending s; calls := calls s; delivered := delivered s;
          unlinking := unlinking s; emitted := emitted s;
          errors := errors s; clock := clock s |}).

(** [fs.unlink(p, () => {})]: the removal is handed to the thread pool and
    the call returns at once; the file goes when the operation is
    performed (step [UnlinkDone] below), and its error, if any, is
    dropped by the empty callback. *)
Definition fs_unlink (p : string) : M unit := λ s,
  (tt, {| scheduledTasks := scheduledTasks s; disk := disk s;
          timers := timers s; next_timer := next_timer s;
          sending := sending s; calls := calls s; delivered := delivered s;
          unlinking := unlinking s ++ [p]; emitted := emitted s;
          errors := errors s; clock := clock s |}).

(** Node's [setTimeout(cb, delay)]: a delay that is NaN, below 1 or above
    [TIMEOUT_MAX] = 2^31 - 1 is replaced by 1. *)
Definition TIMEOUT_MAX : Z := 2147483647.

Definition timer_after (delay : number) : Z :=
  match delay with
  | Some d => if bool_decide (1 ≤ d ∧ d ≤ TIMEOUT_MAX) then d else 1
  | None => 1
  end.

Definition setTimeout (cb : Callback) (delay : number) : M nat := λ s,
  let h := next_timer s in
  (h, {| scheduledTasks := scheduledTasks s; disk := disk s;
         timers := <[h := {| due := clock s + timer_after delay; callback := cb |}]> (timers s);
         next_timer := S h;
         sending := sending s; calls := calls s; delivered := delivered s;
         unlinking := unlinking s; emitted := emitted s;
         errors := errors s; clock := clock s |}).

(** [clearTimeout(h)]: nothing happens when [h] is not armed. *)
Definition clearTimeout (h : nat) : M unit := λ s,
  (tt, {| scheduledTasks := scheduledTasks s; disk := disk s;
          timers := delete h (timers s); next_timer := next_timer s;
          sending := sending s; calls := calls s; delivered := delivered s;
          unlinking := unlinking s; emitted := emitted s;
          errors := errors s; clock := clock s |}).

(** [scheduledTasks.has], [.get], [.set], [.delete] *)
Definition tasks_get (id : jsstr) : M (option Task) :=
  λ s, (scheduledTasks s !! id, s).

Definition tasks_set (id : jsstr) (t : Task) : M unit := λ s,
  (tt, {| scheduledTasks := <[id := t]> (scheduledTasks s); disk := disk s;
          timers := timers s; next_timer := next_timer s;
          sending := sending s; calls := calls s; delivered := delivered s;
          unlinking := unlinking s; emitted := emitted s;
          errors := errors s; clock := clock s |}).

Definition tasks_delete (id : jsstr) : M unit := λ s,
  (tt, {| scheduledTasks := delete id (scheduledTasks s); disk := disk s;
          timers := timers s; next_timer := next_timer s;
          sending := sending s; calls := calls s; delivered := delivered s;
          unlinking := unlinking s; emitted := emitted s;
          errors := errors s; clock := clock s |}).

(** [io.emit('message_sent', e)] *)
Definition io_emit (e : Emit) : M unit := λ s,
  (tt, {| scheduledTasks := scheduledTasks s; disk := disk s;
          timers := timers s; next_timer := next_timer s;
          sending := sending s; calls := calls s; delivered := delivered s;
          unlinking := unlinking s; emitted := emitted s ++ [e];
          errors := errors s; clock := clock s |}).

(** [console.error(...)] in the catch of the timer callback. *)
Definition console_error (id : jsstr) (e : string) : M unit := λ s,
  (tt, {| scheduledTasks := scheduledTasks s; disk := disk s;
          timers := timers s; next_timer := next_timer s;
          sending := sending s; calls := calls s; delivered := delivered s;
          unlinking := unlinking s; emitted := emitted s;
          errors := errors s ++ [(id, e)]; clock := clock s |}).

(** [client.sendMessage(groupId, media)] where [media] was read from
    [cb_path] by [MessageMedia.fromFilePath]: the call is made and the
    callback with handle [h] is suspended at its [await]. *)
Definition client_sendMessage (h : nat) (cb : Callback) : M unit := λ s,
  (tt, {| scheduledTasks := scheduledTasks s; disk := disk s;
          timers := timers s; next_timer := next_timer s;
          sending := <[h := cb]> (sending s);
          calls := calls s ++ [(cb_groupId cb, cb_path cb)];
          delivered := delivered s;
          unlinking := unlinking s; emitted := emitted s;
          errors := errors s; clock := clock s |}).

(** multer's disk storage writes the uploaded part to [p]. *)
Definition fs_write (p : string) : M unit := λ s,
  (tt, {| scheduledTasks := scheduledTasks s; disk := {[p]} ∪ disk s;
          timers := timers s; next_timer := next_timer s;
          sending := sending s; calls := calls s; delivered := delivered s;
          unlinking := unlinking s; emitted := emitted s;
          errors := errors s; clock := clock s |}).

(** *** JavaScript values *)

(** [!x] is false for a non-empty string only. *)
Definition truthy (x : jsstr) : bool :=
  match x with
  | Some s => bool_decide (s ≠ "")
  | None => false
  end.

(** [a - now] on numbers: NaN stays NaN. *)
Definition number_sub (a : number) (now : Z) : number :=
  match a with
  | Some t => Some (t - now)
  | None => None
  end.

(** [delay < 0]: false for NaN. *)
Definition number_lt0 (delay : number) : bool :=
  match delay with
  | Some d => bool_decide (d < 0)
  | None => false
  end.

(** The text a template literal gives for a field. *)
Definition template (x : jsstr) : string :=
  match x with
  | Some s => s
  | None => "undefined"
  end.

Definition res_json (status : Z) (b : Body) : Response :=
  {| res_status := status; res_body := b |}.

(** The closure of the timer callback of a request whose file is at [path]. *)
Definition closure (path : string) (req : ScheduleReq) : Callback :=
  {| cb_path := path; cb_groupId := groupId req; cb_uiId := uiId req |}.

(** What the event loop can run next. *)
Inductive event :=
| PostSchedule (req : ScheduleReq)   (* a POST /api/schedule arrives *)
| PostCancel (id : jsstr)            (* a POST /api/cancel arrives *)
| TimerFire (h : nat)                (* the armed timer [h] is due and fires *)
| SendResolved (h : nat)             (* the send awaited by callback [h] resolves *)
| SendRejected (h : nat) (e : string)(* ... or rejects with error [e] *)
| UnlinkDone                         (* the oldest pending fs.unlink is performed *)
| Tick (ms : Z).                     (* the clock advances *)


(** ** The answers of /api/cancel *)

Definition Cancelled (v : version) : Response :=
  match v with
  | ServerJs => res_json 200 (body_status "Cancelled")
  | Part000 => res_json 200 (body_status "Cancelled and Deleted")
  end.

Definition NotFound (v : version) : Response :=
  match v with
  | ServerJs => res_json 404 (body_error "Not found")
  | Part000 => res_json 404 (body_error "Task ID not found or already sent")
  end.

(** The answer of an accepted /api/schedule. *)
Definition Scheduled (id : jsstr) : Response :=
  res_json 200 (body_scheduled "Scheduled" id).

(** The [status] the [message_sent] event carries besides the id. *)
Definition sent_status (v : version) : jsstr :=
  match v with ServerJs => None | Part000 => Some "Sent" end.

(** ** Vocabulary of the specification *)

(** The state once every pending [fs.unlink] has been performed. *)
Definition settle (s : State) : State :=
  {| scheduledTasks := scheduledTasks s;
     disk := disk s ∖ list_to_set (unlinking s);
     timers := timers s; next_timer := next_timer s;
     sending := sending s; calls := calls s; delivered := delivered s;
     unlinking := []; emitted := emitted s;
     errors := errors s; clock := clock s |}.

(** The state a successful cancel of the entry [id ↦ t] leaves. *)
Definition cancelled_state (id : jsstr) (t : Task) (s : State) : State :=
  {| scheduledTasks := delete id (scheduledTasks s);
     disk := disk s ∖ {[filePath t]};
     timers := delete (timeout t) (timers s);
     next_timer := next_timer s; sending := sending s; calls := calls s;
     delivered := delivered s; unlinking := unlinking s; emitted := emitted s;
     errors := errors s; clock := clock s |}.

(** Every handle stored in the registry was returned by an earlier
    [setTimeout]. *)
Definition handles_issued (s : State) : Prop :=
  ∀ id t, scheduledTasks s !! id = Some t → (timeout t < next_timer s)%nat.

(** The check for required data each copy makes before it looks at the
    time: server.js line 90, part_000 line 128. *)
Definition has_required (v : version) (req : ScheduleReq) : bool :=
  match v with
  | ServerJs => bool_decide (is_Some (image req))
  | Part000 => bool_decide (is_Some (image req)) && truthy (groupId req)
               && truthy (scheduleTime req) && truthy (uiId req)
  end.

(** The error text of a request for a past time. *)
Definition past_text (v : version) : string :=
  match v with
  | ServerJs => "Past time"
  | Part000 => "Scheduled time is in the past."
  end.

(** Exactly one of two outcomes. *)
Definition exactly_one (A B : Prop) : Prop := (A ∧ ¬ B) ∨ (¬ A ∧ B).

(** ** The states the schedule handler leaves *)

(** The upload was stored and the request turned down without touching
    it again. *)
Definition stored_state (path : string) (s : State) : State :=
  {| scheduledTasks := scheduledTasks s; disk := {[path]} ∪ disk s;
     timers := timers s; next_timer := next_timer s;
     sending := sending s; calls := calls s; delivered := delivered s;
     unlinking := unlinking s; emitted := emitted s;
     errors := errors s; clock := clock s |}.

(** The upload was stored and its removal issued. *)
Definition discarded_state (path : string) (s : State) : State :=
  {| scheduledTasks := scheduledTasks s; disk := {[path]} ∪ disk s;
     timers := timers s; next_timer := next_timer s;
     sending := sending s; calls := calls s; delivered := delivered s;
     unlinking := unlinking s ++ [path]; emitted := emitted s;
     errors := errors s; clock := clock s |}.

(** The upload was stored, a timer armed for [delay] and the entry set. *)
Definition scheduled_state (req : ScheduleReq) (path : string) (delay : number)
    (s : State) : State :=
  {| scheduledTasks :=
       <[uiId req := {| timeout := next_timer s; filePath := path |}]> (scheduledTasks s);
     disk := {[path]} ∪ disk s;
     timers :=
       <[next_timer s := {| due := clock s + timer_after delay;
                            callback := closure path req |}]> (timers s);
     next_timer := S (next_timer s);
     sending := sending s; calls := calls s; delivered := delivered s;
     unlinking := unlinking s; emitted := emitted s;
     errors := errors s; clock := clock s |}.

(** The text of the 400 for missing data. *)
Definition missing_text (v : version) : string :=
  match v with
  | ServerJs => "No file"
  | Part000 => "Missing required data"
  end.

(** ** The states the timer callback leaves *)

(** The timer fired, the file was there: the send is in flight. *)
Definition sending_state (h : nat) (cb : Callback) (s : State) : State :=
  {| scheduledTasks := scheduledTasks s; disk := disk s;
     timers := delete h (timers s); next_timer := next_timer s;
     sending := <[h := cb]> (sending s);
     calls := calls s ++ [(cb_groupId cb, cb_path cb)];
     delivered := delivered s;
     unlinking := unlinking s; emitted := emitted s;
     errors := errors s; clock := clock s |}.

(** The timer fired, the file was gone: only the entry is deleted. *)
Definition skipped_state (h : nat) (cb : Callback) (s : State) : State :=
  {| scheduledTasks := delete (cb_uiId cb) (scheduledTasks s); disk := disk s;
     timers := delete h (timers s); next_timer := next_timer s;
     sending := sending s; calls := calls s; delivered := delivered s;
     unlinking := unlinking s; emitted := emitted s;
     errors := errors s; clock := clock s |}.

(** The send resolved: event, removal of the file issued, entry deleted. *)
Definition sent_state (v : version) (h : nat) (cb : Callback) (s : State) : State :=
  {| scheduledTasks := delete (cb_uiId cb) (scheduledTasks s); disk := disk s;
     timers := timers s; next_timer := next_timer s;
     sending := delete h (sending s); calls := calls s;
     delivered := delivered s ++ [(cb_groupId cb, cb_path cb)];
     unlinking := unlinking s ++ [cb_path cb];
     emitted := emitted s ++ [message_sent (cb_uiId cb) (sent_status v)];
     errors := errors s; clock := clock s |}.

(** What [console.error] is given in the catch. *)
Definition logged (v : version) (cb : Callback) (e : string) : jsstr * string :=
  match v with
  | ServerJs => (None, e)
  | Part000 => (Some ("Failed to send " ++ template (cb_uiId cb) ++ ":"), e)
  end.

(** The send rejected: the error is logged, and that is all. *)
Definition failed_state (v : version) (h : nat) (cb : Callback) (e : string)
    (s : State) : State :=
  {| scheduledTasks := scheduledTasks s; disk := disk s;
     timers := timers s; next_timer := next_timer s;
     sending := delete h (sending s); calls := calls s;
     delivered := delivered s;
     unlinking := unlinking s; emitted := emitted s;
     errors := errors s ++ [logged v cb e]; clock := clock s |}.

(** ** The WhatsApp client: readiness and /api/groups *)

(** A chat as [client.getChats()] returns it, with the three fields the
    handler reads: [c.isGroup], [c.name] and [c.id._serialized]. *)
Record Chat := {
  isGroup : bool;
  chat_name : string;
  chat_id : string
}.

(** An element of the answer: [{ name: c.name, id: c.id._serialized }]. *)
Record Group := {
  group_name : string;
  group_id : string
}.

(** The events of the client the server listens to. *)
Inductive ClientEvent :=
| on_qr (code : string)
| on_ready
| on_disconnected (reason : string).

(** What the listeners [io.emit]. *)
Inductive Broadcast :=
| qr_code (code : string)
| ready (b : bool)
| disconnected (reason : string).

(** [let isReady], the broadcasts made, and the number of calls of
    [client.initialize()]. *)
Record Channel := {
  isReady : bool;
  broadcasts : list Broadcast;
  initialized : nat
}.

(** [let isReady = false] and the [client.initialize()] at the end of the
    set-up (server.js 53 and 73, part_000 72 and 97). *)
Definition startup : Channel :=
  {| isReady := false; broadcasts := []; initialized := 1 |}.

(** The three listeners, server.js 55-71 and part_000 77-95. *)
Definition client_on (c : Channel) (e : ClientEvent) : Channel :=
  match e with
  | on_qr code =>
      {| isReady := isReady c; broadcasts := broadcasts c ++ [qr_code code];
         initialized := initialized c |}
  | on_ready =>
      {| isReady := true; broadcasts := broadcasts c ++ [ready true];
         initialized := initialized c |}
  | on_disconnected reason =>
      {| isReady := false; broadcasts := broadcasts c ++ [disconnected reason];
         initialized := S (initialized c) |}
  end.

Definition client_run (es : list ClientEvent) (c : Channel) : Channel :=
  fold_left client_on es c.

(** How an awaited call settles. *)
Inductive Settled (A : Type) :=
| resolved (a : A)
| rejected (message : string).
Arguments resolved {A} a.
Arguments rejected {A} message.

Inductive GroupsBody :=
| groups_error (error : string)
| groups_json (groups : list Group).

(** What a GET /api/groups does: whether it called [client.getChats()],
    what it gave [console.error], and its answer. *)
Record GroupsAnswer := {
  called_getChats : bool;
  groups_log : list (string * string);
  groups_status : Z;
  groups_body : GroupsBody
}.

Definition to_group (c : Chat) : Group :=
  {| group_name := chat_name c; group_id := chat_id c |}.

(** GET /api/groups of src/server.js, lines 77-84; [getChats] is how the
    call settles when it is made. *)
Definition server_get_groups (c : Channel) (getChats : Settled (list Chat)) : GroupsAnswer :=
  if negb (isReady c) then
    {| called_getChats := false; groups_log := [];
       groups_status := 503; groups_body := groups_error "Not ready" |}
  else
    match getChats with
    | resolved chats =>
        {| called_getChats := true; groups_log := [];
           groups_status := 200;
           groups_body := groups_json (List.map to_group (List.filter isGroup chats)) |}
    | rejected message =>
        {| called_getChats := true; groups_log := [];
           groups_status := 500; groups_body := groups_error message |}
    end.

(** GET /api/groups of src/unnamed/part_000, lines 102-121. *)
Definition part000_get_groups (c : Channel) (getChats : Settled (list Chat)) : GroupsAnswer :=
  if negb (isReady c) then
    {| called_getChats := false; groups_log := [];
       groups_status := 503;
       groups_body := groups_error "WhatsApp not ready yet. Please wait." |}
  else
    match getChats with
    | resolved chats =>
        {| called_getChats := true; groups_log := [];
           groups_status := 200;
           groups_body := groups_json (List.map to_group (List.filter isGroup chats)) |}
    | rejected message =>
        {| called_getChats := true;
           groups_log := [("Error fetching groups:", message)];
           groups_status := 500; groups_body := groups_error message |}
    end.

Definition get_groups (v : version) : Channel → Settled (list Chat) → GroupsAnswer :=
  match v with ServerJs => server_get_groups | Part000 => part000_get_groups end.

(** Whether the last word of the client, among ready and disconnected,
    was ready; [start] when it said neither. *)
Fixpoint last_word (start : bool) (es : list ClientEvent) : bool :=
  match es with
  | [] => start
  | on_qr _ :: es => last_word start es
  | on_ready :: es => last_word true es
  | on_disconnected _ :: es => last_word false es
  end.

(** The broadcast a client event is relayed as. *)
Definition relay (e : ClientEvent) : Broadcast :=
  match e with
  | on_qr code => qr_code code
  | on_ready => ready true
  | on_disconnected reason => disconnected reason
  end.

Definition is_disconnected (e : ClientEvent) : bool :=
  match e with on_disconnected _ => true | _ => false end.

(** ** Counting and bookkeeping of the scheduler *)

(** [e] is the firing of the timer [h]. *)
Definition is_fire (h : nat) (e : event) : bool :=
  match e with
  | TimerFire h' => bool_decide (h = h')
  | _ => false
  end.


(** An answer of an accepted /api/schedule. *)
Definition is_scheduled (r : Response) : bool :=
  match res_body r with
  | body_scheduled _ _ => true
  | _ => false
  end.

(** Every armed timer has a handle that [setTimeout] has returned. *)
Definition timers_issued (s : State) : Prop :=
  ∀ h t, timers s !! h = Some t → (h < next_timer s)%nat.

(** A callback that is suspended at its [await] has a handle that was
    returned and is no longer armed. *)
Definition sends_spent (s : State) : Prop :=
  ∀ h cb, sending s !! h = Some cb → (h < next_timer s)%nat ∧ timers s !! h = None.

(** Every [client.sendMessage] call is in flight, was logged as failed, or
    was delivered; every delivery has its [message_sent] event; and there
    are no more calls and armed timers than handles returned. *)
Definition accounted (s : State) : Prop :=
  length (calls s) = (length (delivered s) + length (errors s) + size (sending s))%nat ∧
  length (emitted s) = length (delivered s) ∧
  (length (calls s) + size (timers s) ≤ next_timer s)%nat.

(** The timer stored in a registry entry, while it is armed, is the one
    whose callback sends the file of the entry under the id of the entry. *)
Definition registry_agrees (s : State) : Prop :=
  ∀ id t tm, scheduledTasks s !! id = Some t → timers s !! timeout t = Some tm →
    cb_uiId (callback tm) = id ∧ cb_path (callback tm) = filePath t.

(** The handle [h] has been returned and is not armed. *)
Definition spent (h : nat) (s : State) : Prop :=
  (h < next_timer s)%nat ∧ timers s !! h = None.

(** A string without the character '-'. *)
Fixpoint dashless (s : string) : bool :=
  match s with
  | EmptyString => true
  | String c s => negb (Ascii.eqb c "-"%char) && dashless s
  end.

(** ** A concrete deployment, for the examples *)

Module Demo.

(** The Dockerfile's WORKDIR is /usr/src/app. *)
Definition uploadDir : string := "/usr/src/app/uploads".

(** [Date.parse] on the strings of the examples. *)
Definition Date_parse (s : string) : number :=
  if decide (s = "2023-11-14T22:13:20.000Z") then Some 1700000000000
  else if decide (s = "2023-11-14T22:13:25.000Z") then Some 1700000005000
  else if decide (s = "2023-11-14T21:13:20.000Z") then Some 1699996400000
  else None.

(** The clock reads 2023-11-14T22:13:20.000Z. *)
Definition boot : list event := [Tick 1700000000000].

Definition request (id : jsstr) (time : jsstr) (name : string) : ScheduleReq :=
  {| groupId := Some "grp@x"; scheduleTime := time; uiId := id; image := Some name |}.

(** Five seconds ahead, now, an hour ago, and not a date. *)
Definition ahead : jsstr := Some "2023-11-14T22:13:25.000Z".
Definition now : jsstr := Some "2023-11-14T22:13:20.000Z".
Definition ago : jsstr := Some "2023-11-14T21:13:20.000Z".
Definition garbage : jsstr := Some "next tuesday".

End Demo.

(** ** The program *)

Section Program.

(** [path.join(__dirname, 'uploads')] *)
Variable uploadDir : string.

(** What [new Date(s).getTime()] gives for a string: the time stamp in
    milliseconds, or NaN when [s] is not a date. *)
Variable Date_parse : string → number.


(** [new Date(scheduleTime).getTime()]; [new Date(undefined)] is an
    invalid date. *)
Definition Date_getTime (scheduleTime : jsstr) : number :=
  match scheduleTime with
  | Some s => Date_parse s
  | None => None
  end.

(** The [filename] function given to [multer.diskStorage]:
    [Date.now() + '-' + file.originalname]. *)
Definition filename (now : Z) (originalname : string) : string :=
  pretty now ++ "-" ++ originalname.

(** [upload.single('image')]: the part named 'image', when there is one,
    is stored under [uploadDir] and [req.file.path] is its path. *)
Definition upload_single (req : ScheduleReq) : M (option string) :=
  match image req with
  | None => ret None
  | Some originalname =>
      let! now := Date_now in
      let path := uploadDir ++ "/" ++ filename now originalname in
      fs_write path ;;;
      ret (Some path)
  end.

(** *** src/server.js *)

(** POST /api/schedule, lines 86-113. *)
Definition server_post_schedule (req : ScheduleReq) : M Response :=
  let! file := upload_single req in
  match file with
  | None => ret (res_json 400 (body_error "No file"))
  | Some path =>
      let! now := Date_now in
      let delay := number_sub (Date_getTime (scheduleTime req)) now in
      if number_lt0 delay then
        fs_unlink path ;;;
        ret (res_json 400 (body_error "Past time"))
      else
        let! timeout := setTimeout (closure path req) delay in
        tasks_set (uiId req) {| timeout := timeout; filePath := path |} ;;;
        ret (res_json 200 (body_scheduled "Scheduled" (uiId req)))
  end.

(** The timer callback, lines 99-109, up to its [await]: when the file
    is there the media is read and the send is started, otherwise the
    entry is deleted at once. *)
Definition server_timer_begin (h : nat) (cb : Callback) : M unit :=
  let! there := fs_existsSync (cb_path cb) in
  if there then client_sendMessage h cb
  else tasks_delete (cb_uiId cb).

(** ... after the [await], when the send resolved, lines 104-107 ... *)
Definition server_timer_resolved (cb : Callback) : M unit :=
  io_emit (message_sent (cb_uiId cb) None) ;;;
  fs_unlink (cb_path cb) ;;;
  tasks_delete (cb_uiId cb).

(** ... and when it threw: the [catch] of line 108. *)
Definition server_timer_rejected (cb : Callback) (e : string) : M unit :=
  console_error None e.

(** POST /api/cancel, lines 115-126. *)
Definition server_post_cancel (id : jsstr) : M Response :=
  let! t := tasks_get id in
  match t with
  | Some t =>
      clearTimeout (timeout t) ;;;
      (let! there := fs_existsSync (filePath t) in
       if there then fs_unlinkSync (filePath t) else ret tt) ;;;
      tasks_delete id ;;;
      ret (res_json 200 (body_status "Cancelled"))
  | None => ret (res_json 404 (body_error "Not found"))
  end.

(** *** src/unnamed/part_000 *)

(** POST /api/schedule, lines 124-175. *)
Definition part000_post_schedule (req : ScheduleReq) : M Response :=
  let! file := upload_single req in
  match file with
  | Some path =>
      if negb (truthy (groupId req)) || negb (truthy (scheduleTime req))
         || negb (truthy (uiId req))
      then ret (res_json 400 (body_error "Missing required data"))
      else
        let targetTime := Date_getTime (scheduleTime req) in
        let! now := Date_now in
        let delay := number_sub targetTime now in
        if number_lt0 delay then
          fs_unlink path ;;;
          ret (res_json 400 (body_error "Scheduled time is in the past."))
        else
          let! timeoutId := setTimeout (closure path req) delay in
          tasks_set (uiId req) {| timeout := timeoutId; filePath := path |} ;;;
          ret (res_json 200 (body_scheduled "Scheduled" (uiId req)))
  | None => ret (res_json 400 (body_error "Missing required data"))
  end.

(** The timer callback, lines 146-166. *)
Definition part000_timer_begin (h : nat) (cb : Callback) : M unit :=
  let! there := fs_existsSync (cb_path cb) in
  if there then client_sendMessage h cb
  else tasks_delete (cb_uiId cb).

Definition part000_timer_resolved (cb : Callback) : M unit :=
  io_emit (message_sent (cb_uiId cb) (Some "Sent")) ;;;
  fs_unlink (cb_path cb) ;;;
  tasks_delete (cb_uiId cb).

Definition part000_timer_rejected (cb : Callback) (e : string) : M unit :=
  console_error (Some ("Failed to send " ++ template (cb_uiId cb) ++ ":")) e.

(** POST /api/cancel, lines 178-199. *)
Definition part000_post_cancel (id : jsstr) : M Response :=
  let! task := tasks_get id in
  match task with
  | Some task =>
      clearTimeout (timeout task) ;;;
      (let! there := fs_existsSync (filePath task) in
       if there then fs_unlinkSync (filePath task) else ret tt) ;;;
      tasks_delete id ;;;
      ret (res_json 200 (body_status "Cancelled and Deleted"))
  | None => ret (res_json 404 (body_error "Task ID not found or already sent"))
  end.

(** *** Either copy *)

Definition post_schedule (v : version) : ScheduleReq → M Response :=
  match v with ServerJs => server_post_schedule | Part000 => part000_post_schedule end.

Definition post_cancel (v : version) : jsstr → M Response :=
  match v with ServerJs => server_post_cancel | Part000 => part000_post_cancel end.

Definition timer_begin (v : version) : nat → Callback → M unit :=
  match v with ServerJs => server_timer_begin | Part000 => part000_timer_begin end.

Definition timer_resolved (v : version) : Callback → M unit :=
  match v with ServerJs => server_timer_resolved | Part000 => part000_timer_resolved end.

Definition timer_rejected (v : version) : Callback → string → M unit :=
  match v with ServerJs => server_timer_rejected | Part000 => part000_timer_rejected end.

(** ** The event loop *)

Definition disarm (h : nat) : M unit := clearTimeout h.

Definition resume (h : nat) (ok : bool) : M unit := λ s,
  (tt, {| scheduledTasks := scheduledTasks s; disk := disk s;
          timers := timers s; next_timer := next_timer s;
          sending := delete h (sending s); calls := calls s;
          delivered := match sending s !! h with
                       | Some cb => if ok then delivered s ++ [(cb_groupId cb, cb_path cb)]
                                    else delivered s
                       | None => delivered s
                       end;
          unlinking := unlinking s; emitted := emitted s;
          errors := errors s; clock := clock s |}).

Definition perform_unlink : M unit := λ s,
  (tt, {| scheduledTasks := scheduledTasks s;
          disk := match unlinking s with p :: _ => disk s ∖ {[p]} | [] => disk s end;
          timers := timers s; next_timer := next_timer s;
          sending := sending s; calls := calls s; delivered := delivered s;
          unlinking := tail (unlinking s); emitted := emitted s;
          errors := errors s; clock := clock s |}).

Definition advance (ms : Z) : M unit := λ s,
  (tt, {| scheduledTasks := scheduledTasks s; disk := disk s;
          timers := timers s; next_timer := next_timer s;
          sending := sending s; calls := calls s; delivered := delivered s;
          unlinking := unlinking s; emitted := emitted s;
          errors := errors s; clock := clock s + ms |}).

(** One step: the response, when the step is a request, and the next
    state; [None] when the event cannot happen in [s]. *)
Definition step (v : version) (e : event) (s : State) : option (option Response * State) :=
  match e with
  | PostSchedule req =>
      let '(r, s') := post_schedule v req s in Some (Some r, s')
  | PostCancel id =>
      let '(r, s') := post_cancel v id s in Some (Some r, s')
  | TimerFire h =>
      match timers s !! h with
      | Some t =>
          if bool_decide (due t ≤ clock s)
          then Some (None, snd ((disarm h ;;; timer_begin v h (callback t)) s))
          else None
      | None => None
      end
  | SendResolved h =>
      match sending s !! h with
      | Some cb => Some (None, snd ((resume h true ;;; timer_resolved v cb) s))
      | None => None
      end
  | SendRejected h e =>
      match sending s !! h with
      | Some cb => Some (None, snd ((resume h false ;;; timer_rejected v cb e) s))
      | None => None
      end
  | UnlinkDone =>
      match unlinking s with
      | _ :: _ => Some (None, snd (perform_unlink s))
      | [] => None
      end
  | Tick ms =>
      if bool_decide (0 < ms) then Some (None, snd (advance ms s)) else None
  end.

(** A run: the responses of its requests, in order, and the last state. *)
Fixpoint run (v : version) (es : list event) (s : State) : option (list Response * State) :=
  match es with
  | [] => Some ([], s)
  | e :: es =>
      match step v e s with
      | Some (r, s') =>
          match run v es s' with
          | Some (rs, s'') => Some ((option_list r ++ rs)%list, s'')
          | None => None
          end
      | None => None
      end
  end.

(** The state changes of the program, with the answer when there is one:
    what a step can do, whatever enabled it. *)
Inductive transition (v : version) : State → option Response → State → Prop :=
| t_refused s status error :
    transition v s (Some (res_json status (body_error error))) s
| t_stored s path error :
    transition v s (Some (res_json 400 (body_error error))) (stored_state path s)
| t_discarded s path error :
    transition v s (Some (res_json 400 (body_error error))) (discarded_state path s)
| t_scheduled s req path delay :
    transition v s (Some (Scheduled (uiId req))) (scheduled_state req path delay s)
| t_cancelled s id t :
    scheduledTasks s !! id = Some t →
    transition v s (Some (Cancelled v)) (cancelled_state id t s)
| t_sending s h t :
    timers s !! h = Some t →
    transition v s None (sending_state h (callback t) s)
| t_skipped s h t :
    timers s !! h = Some t →
    transition v s None (skipped_state h (callback t) s)
| t_sent s h cb :
    sending s !! h = Some cb →
    transition v s None (sent_state v h cb s)
| t_failed s h cb e :
    sending s !! h = Some cb →
    transition v s None (failed_state v h cb e s)
| t_unlinked s :
    transition v s None (perform_unlink s).2
| t_advanced s ms :
    transition v s None (advance ms s).2.

(** ** The sentences of the specification *)


(** [req.file.path] for a request handled at clock reading [now]. *)
Definition upload_path (req : ScheduleReq) (now : Z) : option string :=
  match image req with
  | Some originalname => Some (uploadDir ++ "/" ++ filename now originalname)
  | None => None
  end.

(** [triggerAt - now()] of a request. *)
Definition delay_of (req : ScheduleReq) (now : Z) : number :=
  number_sub (Date_getTime (scheduleTime req)) now.

(** A request is turned down, nothing is scheduled and its upload does
    not stay on disk. *)
Definition turned_down (req : ScheduleReq) (s : State) (r : Response) (s' : State) : Prop :=
  res_status r = 400 ∧
  scheduledTasks s' = scheduledTasks s ∧
  timers s' = timers s ∧
  ∀ path, upload_path req (clock s) = Some path → path ∉ disk (settle s').

(** *** The sentences of the specification that the code does not
    satisfy as they stand, written as they stand *)

(** "if the timer has already begun its delivery attempt, cancel must
    report NotFound": whichever way cancel meets the two halves of the
    callback of the pending task [id], exactly one of cancellation and
    delivery happens. *)
Definition race_contract (v : version) (id : jsstr) (h : nat) (s : State) : Prop :=
  (∀ rs s', run v [PostCancel id] s = Some (rs, s') →
     exactly_one (Cancelled v ∈ rs) (emitted s' ≠ emitted s) ∧
     step v (TimerFire h) s' = None) ∧
  (∀ rs s', run v [TimerFire h; PostCancel id; SendResolved h] s = Some (rs, s') →
     rs = [NotFound v] ∧
     exactly_one (Cancelled v ∈ rs) (emitted s' ≠ emitted s)) ∧
  (∀ rs s', run v [TimerFire h; SendResolved h; PostCancel id] s = Some (rs, s') →
     rs = [NotFound v] ∧
     exactly_one (Cancelled v ∈ rs) (emitted s' ≠ emitted s)).

(** "the second is rejected as Duplicate and its file is deleted" *)
Definition duplicate_contract (v : version) (req : ScheduleReq) (s : State) : Prop :=
  is_Some (scheduledTasks s !! uiId req) →
  turned_down req s (post_schedule v req s).1
                    (post_schedule v req s).2.

(** "creation with a non-future time is rejected" *)
Definition past_time_contract (v : version) (req : ScheduleReq) (s : State) : Prop :=
  ∀ triggerAt, Date_getTime (scheduleTime req) = Some triggerAt →
  ¬ (clock s < triggerAt) →
  turned_down req s (post_schedule v req s).1
                    (post_schedule v req s).2.

(** "If present and Pending: disarms the timer, synchronously removes the
    payload, removes the task, returns [{status:"Cancelled"}]. If absent,
    returns NotFound" and changes nothing. *)
Definition cancel_contract (v : version) (id : jsstr) (s : State) : Prop :=
  let r := (post_cancel v id s).1 in
  let s' := (post_cancel v id s).2 in
  match scheduledTasks s !! id with
  | Some t =>
      timers s' !! timeout t = None ∧
      (filePath t ∉ disk s') ∧
      scheduledTasks s' !! id = None ∧
      r = res_json 200 (body_status "Cancelled")
  | None => res_status r = 404 ∧ s' = s
  end.

(** "whose timer fires while the task is still present": the send is
    started with the task's file and destination, and when it resolves the
    event is emitted, the file goes and the entry goes. *)
Definition fire_contract (v : version) (h : nat) (s : State) : Prop :=
  ∀ t, timers s !! h = Some t → due t ≤ clock s →
  scheduledTasks s !! cb_uiId (callback t)
    = Some {| timeout := h; filePath := cb_path (callback t) |} →
  ∃ s1, step v (TimerFire h) s = Some (None, s1) ∧
        calls s1 = (calls s ++ [(cb_groupId (callback t), cb_path (callback t))])%list ∧
  ∃ s2, step v (SendResolved h) s1 = Some (None, s2) ∧
        emitted s2 = (emitted s ++ [message_sent (cb_uiId (callback t)) (sent_status v)])%list ∧
        (cb_path (callback t) ∉ disk (settle s2)) ∧
        scheduledTasks s2 !! cb_uiId (callback t) = None.

(** "file present, destination non-empty, triggerAt parseable and
    strictly future, id non-empty" *)
Definition invalid_input (req : ScheduleReq) (now : Z) : Prop :=
  image req = None ∨
  truthy (groupId req) = false ∨
  match Date_getTime (scheduleTime req) with
  | Some triggerAt => ¬ (now < triggerAt)
  | None => True
  end ∨
  truthy (uiId req) = false.

Definition validation_contract (v : version) (req : ScheduleReq) (s : State) : Prop :=
  invalid_input req (clock s) →
  let r := (post_schedule v req s).1 in
  let s' := (post_schedule v req s).2 in
  res_status r = 400 ∧ scheduledTasks s' = scheduledTasks s ∧ timers s' = timers s.

(** What an accepted request with an unparseable time leaves: the task
    under its id, and its timer armed for the shortest delay there is. *)
Definition accepted_at_once (req : ScheduleReq) (path : string) (s : State)
    (r : Response) (s' : State) : Prop :=
  r = Scheduled (uiId req) ∧
  scheduledTasks s' !! uiId req = Some {| timeout := next_timer s; filePath := path |} ∧
  timers s' !! next_timer s = Some {| due := clock s + 1; callback := closure path req |}.

(** "for every schedule request with a file present whose scheduleTime
    string does not parse ... the request is accepted" *)
Definition unparseable_contract (v : version) (req : ScheduleReq) (s : State) : Prop :=
  ∀ path str, upload_path req (clock s) = Some path →
  scheduleTime req = Some str → Date_parse str = None →
  accepted_at_once req path s (post_schedule v req s).1
                              (post_schedule v req s).2.

(** *** What the code does instead *)

(** The requests each copy turns down. *)
Definition in_the_past (req : ScheduleReq) (now : Z) : bool :=
  match Date_getTime (scheduleTime req) with
  | Some triggerAt => bool_decide (triggerAt < now)
  | None => false
  end.

Definition rejects (v : version) (req : ScheduleReq) (now : Z) : bool :=
  negb (has_required v req) || in_the_past req now.

(** The state a run from [init] ends in. *)
Definition after (v : version) (es : list event) : State :=
  match run v es init with
  | Some (_, s) => s
  | None => init
  end.

Definition answers (v : version) (es : list event) : option (list Response) :=
  fst <$> run v es init.


(** * Proofs *)

Lemma State_eq (a b : State) :
  scheduledTasks a = scheduledTasks b → disk a = disk b → timers a = timers b →
  next_timer a = next_timer b → sending a = sending b → calls a = calls b →
  delivered a = delivered b → unlinking a = unlinking b → emitted a = emitted b →
  errors a = errors b → clock a = clock b → a = b.
Proof. destruct a, b; simpl; intros; subst; reflexivity. Qed.

Ltac js_unfold :=
  cbv [post_cancel server_post_cancel part000_post_cancel
       post_schedule server_post_schedule part000_post_schedule upload_single
       timer_begin server_timer_begin part000_timer_begin
       timer_resolved server_timer_resolved part000_timer_resolved
       timer_rejected server_timer_rejected part000_timer_rejected
       disarm resume perform_unlink advance
       bind ret Date_now fs_existsSync fs_unlinkSync fs_unlink fs_write
       setTimeout clearTimeout tasks_get tasks_set tasks_delete io_emit
       console_error client_sendMessage].

(** *** /api/cancel *)

Lemma difference_absent (X : gset string) p : p ∉ X → X = X ∖ {[p]}.
Proof.
  intros Hp. apply set_eq. intros x. rewrite elem_of_difference, elem_of_singleton.
  split; [|tauto]. intros Hx. split; [assumption|]. intros ->. contradiction.
Qed.

Lemma post_cancel_present v id t s :
  scheduledTasks s !! id = Some t →
  post_cancel v id s = (Cancelled v, cancelled_state id t s).
Proof.
  intros Hid. destruct v; js_unfold; rewrite Hid; cbn;
    (case_bool_decide; cbn; f_equal; apply State_eq; cbn;
     solve [reflexivity|apply difference_absent; assumption]).
Qed.

Lemma post_cancel_absent v id s :
  scheduledTasks s !! id = None →
  post_cancel v id s = (NotFound v, s).
Proof. intros Hid. destruct v; js_unfold; rewrite Hid; reflexivity. Qed.

(** *** /api/schedule *)

Lemma upload_path_Some req now path :
  upload_path req now = Some path →
  ∃ name, image req = Some name ∧ path = uploadDir ++ "/" ++ filename now name.
Proof.
  unfold upload_path. destruct (image req) as [name|]; [|discriminate].
  intros [= <-]. eauto.
Qed.

(** No file: both copies answer 400 and leave the state alone. *)
Lemma post_schedule_no_file v req s :
  image req = None →
  post_schedule v req s = (res_json 400 (body_error (missing_text v)), s).
Proof. intros Hf. destruct v; js_unfold; rewrite Hf; reflexivity. Qed.

(** part_000 only: a file and an empty or absent field. *)
Lemma post_schedule_missing_field req s path :
  upload_path req (clock s) = Some path →
  has_required Part000 req = false →
  post_schedule Part000 req s
  = (res_json 400 (body_error "Missing required data"), stored_state path s).
Proof.
  intros (name & Hf & ->)%upload_path_Some Hreq. cbn in Hreq.
  rewrite Hf in Hreq. rewrite bool_decide_eq_true_2 in Hreq by eauto. cbn in Hreq.
  js_unfold. rewrite Hf.
  destruct (truthy (groupId req)), (truthy (scheduleTime req)), (truthy (uiId req));
    cbn in *; try discriminate; reflexivity.
Qed.

(** A file, the required data, and a time before now. *)
Lemma post_schedule_past v req s path :
  upload_path req (clock s) = Some path →
  has_required v req = true →
  number_lt0 (delay_of req (clock s)) = true →
  post_schedule v req s
  = (res_json 400 (body_error (past_text v)), discarded_state path s).
Proof.
  intros (name & Hf & ->)%upload_path_Some Hreq Hlt.
  unfold delay_of in Hlt.
  destruct v; js_unfold; rewrite Hf; cbn in *.
  - rewrite Hlt. reflexivity.
  - rewrite Hf in Hreq. rewrite bool_decide_eq_true_2 in Hreq by eauto.
    destruct (truthy (groupId req)), (truthy (scheduleTime req)), (truthy (uiId req));
      cbn in *; try discriminate.
    rewrite Hlt. reflexivity.
Qed.

(** A file, the required data, and a delay that is not below 0. *)
Lemma post_schedule_accepted v req s path :
  upload_path req (clock s) = Some path →
  has_required v req = true →
  number_lt0 (delay_of req (clock s)) = false →
  post_schedule v req s
  = (Scheduled (uiId req), scheduled_state req path (delay_of req (clock s)) s).
Proof.
  intros (name & Hf & ->)%upload_path_Some Hreq Hlt.
  unfold delay_of in *.
  destruct v; js_unfold; rewrite Hf; cbn in *.
  - rewrite Hlt. reflexivity.
  - rewrite Hf in Hreq. rewrite bool_decide_eq_true_2 in Hreq by eauto.
    destruct (truthy (groupId req)), (truthy (scheduleTime req)), (truthy (uiId req));
      cbn in *; try discriminate.
    rewrite Hlt. reflexivity.
Qed.

(** *** The timer callback *)

Lemma step_fire_present v h t s :
  timers s !! h = Some t → due t ≤ clock s → cb_path (callback t) ∈ disk s →
  step v (TimerFire h) s = Some (None, sending_state h (callback t) s).
Proof.
  intros Ht Hdue Hfile. cbn. rewrite Ht.
  rewrite bool_decide_eq_true_2 by assumption.
  destruct v; js_unfold; cbn; rewrite bool_decide_eq_true_2 by assumption;
    reflexivity.
Qed.

Lemma step_fire_gone v h t s :
  timers s !! h = Some t → due t ≤ clock s → cb_path (callback t) ∉ disk s →
  step v (TimerFire h) s = Some (None, skipped_state h (callback t) s).
Proof.
  intros Ht Hdue Hfile. cbn. rewrite Ht.
  rewrite bool_decide_eq_true_2 by assumption.
  destruct v; js_unfold; cbn; rewrite bool_decide_eq_false_2 by assumption;
    reflexivity.
Qed.

Lemma step_fire_disarmed v h s :
  timers s !! h = None → step v (TimerFire h) s = None.
Proof. intros Ht. cbn. rewrite Ht. reflexivity. Qed.

Lemma step_tick v ms s :
  0 < ms → step v (Tick ms) s = Some (None, (advance ms s).2).
Proof. intros Hms. cbn. rewrite bool_decide_eq_true_2 by assumption. reflexivity. Qed.

Lemma step_cancel_present v id t s :
  scheduledTasks s !! id = Some t →
  step v (PostCancel id) s = Some (Some (Cancelled v), cancelled_state id t s).
Proof. intros Hid. cbn. rewrite (post_cancel_present _ _ _ _ Hid). reflexivity. Qed.

Lemma step_cancel_absent v id s :
  scheduledTasks s !! id = None →
  step v (PostCancel id) s = Some (Some (NotFound v), s).
Proof. intros Hid. cbn. rewrite (post_cancel_absent _ _ _ Hid). reflexivity. Qed.

Lemma step_resolved v h cb s :
  sending s !! h = Some cb →
  step v (SendResolved h) s = Some (None, sent_state v h cb s).
Proof.
  intros Hcb. cbn. rewrite Hcb. destruct v; js_unfold; cbn; rewrite ?Hcb; reflexivity.
Qed.

Lemma step_rejected v h cb e s :
  sending s !! h = Some cb →
  step v (SendRejected h e) s = Some (None, failed_state v h cb e s).
Proof.
  intros Hcb. cbn. rewrite Hcb. destruct v; js_unfold; cbn; rewrite ?Hcb; reflexivity.
Qed.

(** *** Pending removals *)

(** Performing the pending [fs.unlink]s one after the other ends in
    [settle]. *)
Lemma run_unlinks v (l : list string) : ∀ s,
  unlinking s = l →
  run v (replicate (length l) UnlinkDone) s = Some ([], settle s).
Proof.
  induction l as [|p l IH]; intros s Hl.
  - cbn. f_equal. f_equal. apply State_eq; cbn; rewrite ?Hl; cbn; try reflexivity.
    apply leibniz_equiv. rewrite difference_empty. reflexivity.
  - cbn [length replicate run step]. rewrite Hl.
    rewrite (IH (perform_unlink s).2) by (cbn; rewrite Hl; reflexivity).
    cbn. f_equal. f_equal. apply State_eq; cbn; try reflexivity.
    rewrite Hl. cbn. apply set_eq. intros x.
    rewrite !elem_of_difference, elem_of_union, elem_of_singleton. tauto.
Qed.

(** A file whose removal is pending is gone once the removals are done. *)
Lemma settle_removes p s : p ∈ unlinking s → p ∉ disk (settle s).
Proof.
  cbn. intros Hp. rewrite elem_of_difference, elem_of_list_to_set. tauto.
Qed.

(** *** Handles *)

Lemma handles_issued_init : handles_issued init.
Proof. intros id t. cbn. rewrite lookup_empty. discriminate. Qed.

Lemma handles_issued_delete id s s' :
  handles_issued s →
  scheduledTasks s' = delete id (scheduledTasks s) →
  next_timer s' = next_timer s →
  handles_issued s'.
Proof.
  intros Hs Ht Hn id' t. rewrite Ht, Hn. intros [_ H]%lookup_delete_Some. eauto.
Qed.

Lemma handles_issued_same s s' :
  handles_issued s →
  scheduledTasks s' = scheduledTasks s →
  next_timer s' = next_timer s →
  handles_issued s'.
Proof. intros Hs Ht Hn id' t. rewrite Ht, Hn. apply Hs. Qed.

(** Every step keeps the handles of the registry below [next_timer]. *)
Lemma step_handles_issued v e s r s' :
  handles_issued s → step v e s = Some (r, s') → handles_issued s'.
Proof.
  intros Hs. destruct e as [req|id|h|h|h err| |ms]; cbn.
  - destruct (post_schedule v req s) as [r0 s0] eqn:E.
    intros [= _ <-]. revert E.
    destruct (image req) as [name|] eqn:Hf.
    2:{ rewrite post_schedule_no_file by assumption. intros [= _ <-]. assumption. }
    assert (Hp : upload_path req (clock s)
                 = Some (uploadDir ++ "/" ++ filename (clock s) name))
      by (unfold upload_path; rewrite Hf; reflexivity).
    destruct (has_required v req) eqn:Hreq.
    + destruct (number_lt0 (delay_of req (clock s))) eqn:Hlt.
      * rewrite (post_schedule_past _ _ _ _ Hp Hreq Hlt). intros [= _ <-].
        eapply handles_issued_same; [eassumption|reflexivity..].
      * rewrite (post_schedule_accepted _ _ _ _ Hp Hreq Hlt). intros [= _ <-].
        intros id t. cbn. intros [[_ <-]|[_ H]]%lookup_insert_Some; cbn; [lia|].
        apply Hs in H. lia.
    + destruct v.
      * cbn in Hreq. rewrite Hf in Hreq.
        rewrite bool_decide_eq_true_2 in Hreq by eauto. discriminate.
      * rewrite (post_schedule_missing_field _ _ _ Hp Hreq). intros [= _ <-].
        eapply handles_issued_same; [eassumption|reflexivity..].
  - destruct (post_cancel v id s) as [r0 s0] eqn:E. intros [= _ <-]. revert E.
    destruct (scheduledTasks s !! id) as [t|] eqn:Hid.
    + rewrite (post_cancel_present _ _ _ _ Hid). intros [= _ <-].
      eapply handles_issued_delete; [eassumption|reflexivity..].
    + rewrite (post_cancel_absent _ _ _ Hid). intros [= _ <-]. assumption.
  - destruct (timers s !! h) as [t|]; [|discriminate].
    case_bool_decide; [|discriminate]. intros [= _ <-].
    destruct v; js_unfold; cbn; case_bool_decide; cbn;
      solve [ eapply handles_issued_same; [eassumption|reflexivity..]
            | eapply handles_issued_delete; [eassumption|reflexivity..] ].
  - destruct (sending s !! h) as [cb|] eqn:Hcb; [|discriminate]. intros [= _ <-].
    destruct v; js_unfold; cbn;
      (eapply handles_issued_delete; [eassumption|reflexivity..]).
  - destruct (sending s !! h) as [cb|] eqn:Hcb; [|discriminate]. intros [= _ <-].
    destruct v; js_unfold; cbn;
      (eapply handles_issued_same; [eassumption|reflexivity..]).
  - destruct (unlinking s); [discriminate|]. intros [= _ <-].
    eapply handles_issued_same; [eassumption|reflexivity..].
  - case_bool_decide; [|discriminate]. intros [= _ <-].
    eapply handles_issued_same; [eassumption|reflexivity..].
Qed.

Lemma run_handles_issued v es : ∀ s rs s',
  handles_issued s → run v es s = Some (rs, s') → handles_issued s'.
Proof.
  induction es as [|e es IH]; intros s rs s' Hs; cbn.
  - intros [= _ <-]. assumption.
  - destruct (step v e s) as [[r s1]|] eqn:E; [|discriminate].
    destruct (run v es s1) as [[rs1 s2]|] eqn:E'; [|discriminate].
    intros [= _ <-]. eapply IH; [|eassumption].
    eapply step_handles_issued; eassumption.
Qed.

(** The registry of a state reached from [init] holds issued handles only. *)
Lemma after_handles_issued v es : handles_issued (after v es).
Proof.
  unfold after. destruct (run v es init) as [[rs s]|] eqn:E.
  - eapply run_handles_issued; [apply handles_issued_init|eassumption].
  - apply handles_issued_init.
Qed.

(** * The claims *)

(** C9: cancelling the same id twice in a row, the task being in the
    registry at the first call, answers Cancelled and then NotFound; the
    two answers differ, so it is never Cancelled twice. *)
Theorem C9_cancel_twice v id s :
  is_Some (scheduledTasks s !! id) →
  (∃ s', run v [PostCancel id; PostCancel id] s = Some ([Cancelled v; NotFound v], s')) ∧
  res_status (Cancelled v) = 200 ∧ res_status (NotFound v) = 404.
Proof.
  intros [t Hid]. split; [|destruct v; split; reflexivity].
  exists (cancelled_state id t s). cbn [run].
  rewrite (step_cancel_present _ _ _ _ Hid).
  rewrite step_cancel_absent by (cbn; apply lookup_delete_eq).
  reflexivity.
Qed.

(** C5, amended: cancel of an id that is in the registry disarms the
    timer of the entry, removes its file before it returns (no removal is
    left pending), deletes the entry and answers 200 with
    [{status:"Cancelled"}] in server.js and [{status:"Cancelled and
    Deleted"}] in part_000; cancel of an id that is not in the registry
    answers 404 and leaves the state as it was. *)
Theorem C5_cancel v id s :
  match scheduledTasks s !! id with
  | Some t =>
      post_cancel v id s = (Cancelled v, cancelled_state id t s) ∧
      res_status (Cancelled v) = 200 ∧
      timers (cancelled_state id t s) !! timeout t = None ∧
      (filePath t ∉ disk (cancelled_state id t s)) ∧
      unlinking (cancelled_state id t s) = unlinking s ∧
      scheduledTasks (cancelled_state id t s) !! id = None
  | None =>
      post_cancel v id s = (NotFound v, s) ∧ res_status (NotFound v) = 404
  end.
Proof.
  destruct (scheduledTasks s !! id) as [t|] eqn:Hid.
  - split; [apply post_cancel_present; assumption|].
    split; [destruct v; reflexivity|]. cbn.
    split; [apply lookup_delete_eq|].
    split; [|split; [reflexivity|apply lookup_delete_eq]].
    rewrite elem_of_difference, elem_of_singleton. tauto.
  - split; [apply post_cancel_absent; assumption|destruct v; reflexivity].
Qed.

(** C2, amended: a schedule request whose id is that of a task still in
    the registry is not rejected.  When it has its required data and its
    time is not in the past it is accepted like any other: a new timer is
    armed, the entry of the id is overwritten with the new timer and file,
    the timer of the earlier task stays as it was, and the uploaded file is
    kept. *)
Theorem C2_duplicate_id_overwrites v req s t0 path :
  handles_issued s →
  scheduledTasks s !! uiId req = Some t0 →
  upload_path req (clock s) = Some path →
  has_required v req = true →
  number_lt0 (delay_of req (clock s)) = false →
  ∃ s', post_schedule v req s = (Scheduled (uiId req), s') ∧
        scheduledTasks s' !! uiId req
          = Some {| timeout := next_timer s; filePath := path |} ∧
        timers s' !! next_timer s
          = Some {| due := clock s + timer_after (delay_of req (clock s));
                    callback := closure path req |} ∧
        timeout t0 ≠ next_timer s ∧
        timers s' !! timeout t0 = timers s !! timeout t0 ∧
        path ∈ disk s' ∧
        unlinking s' = unlinking s.
Proof.
  intros Hwf Hid Hp Hreq Hlt.
  exists (scheduled_state req path (delay_of req (clock s)) s).
  assert (Hne : timeout t0 ≠ next_timer s) by (apply Hwf in Hid; lia).
  split; [apply post_schedule_accepted; assumption|]. cbn.
  split; [apply lookup_insert_eq|].
  split; [apply lookup_insert_eq|].
  split; [assumption|].
  split; [apply lookup_insert_ne; congruence|].
  split; [|reflexivity].
  apply elem_of_union_l, elem_of_singleton. reflexivity.
Qed.

(** C4, amended: a schedule request whose triggerAt parses to a time
    strictly before the current time is answered 400, creates no task and
    arms no timer; when it came with its required data, the removal of the
    uploaded file is issued before the answer and the file is gone once
    that removal is performed. *)
Theorem C4_past_time_rejected v req s triggerAt :
  Date_getTime (scheduleTime req) = Some triggerAt →
  triggerAt < clock s →
  let r := (post_schedule v req s).1 in
  let s' := (post_schedule v req s).2 in
  res_status r = 400 ∧
  scheduledTasks s' = scheduledTasks s ∧
  timers s' = timers s ∧
  next_timer s' = next_timer s ∧
  ∀ path, upload_path req (clock s) = Some path → has_required v req = true →
    r = res_json 400 (body_error (past_text v)) ∧
    unlinking s' = (unlinking s ++ [path])%list ∧
    path ∉ disk (settle s').
Proof.
  intros Ht Hlt.
  assert (Hd : number_lt0 (delay_of req (clock s)) = true).
  { unfold delay_of. rewrite Ht. cbn. apply bool_decide_eq_true_2. lia. }
  destruct (image req) as [name|] eqn:Hf.
  2:{ cbn zeta. rewrite post_schedule_no_file by assumption. cbn.
      do 4 (split; [reflexivity|]). intros path. unfold upload_path.
      rewrite Hf. discriminate. }
  assert (Hp : upload_path req (clock s)
               = Some (uploadDir ++ "/" ++ filename (clock s) name))
    by (unfold upload_path; rewrite Hf; reflexivity).
  destruct (has_required v req) eqn:Hreq.
  - cbn zeta. rewrite (post_schedule_past _ _ _ _ Hp Hreq Hd). cbn.
    do 4 (split; [reflexivity|]).
    intros path Hp' _. rewrite Hp in Hp'. injection Hp' as <-.
    do 2 (split; [reflexivity|]).
    rewrite elem_of_difference, elem_of_list_to_set, elem_of_app, list_elem_of_singleton.
    tauto.
  - destruct v.
    + cbn in Hreq. rewrite Hf in Hreq.
      rewrite bool_decide_eq_true_2 in Hreq by eauto. discriminate.
    + cbn zeta. rewrite (post_schedule_missing_field _ _ _ Hp Hreq). cbn.
      do 4 (split; [reflexivity|]). intros; discriminate.
Qed.

(** The past-time test of the handlers, in terms of the two times. *)
Lemma number_lt0_delay req now :
  number_lt0 (delay_of req now) = in_the_past req now.
Proof.
  unfold delay_of, in_the_past.
  destruct (Date_getTime (scheduleTime req)) as [t|]; [|reflexivity].
  cbn. apply bool_decide_ext. lia.
Qed.

(** C7, amended: when the timer of a task fires while the task is in the
    registry and its file is still on disk, [client.sendMessage] is called
    with the task's destination and file; when that call resolves, a
    [message_sent] event carrying the task's id is emitted, the removal of
    the file is issued (the file is gone once it is performed) and the
    entry is deleted. *)
Theorem C7_fire_delivers v h t s :
  timers s !! h = Some t → due t ≤ clock s →
  scheduledTasks s !! cb_uiId (callback t)
    = Some {| timeout := h; filePath := cb_path (callback t) |} →
  cb_path (callback t) ∈ disk s →
  ∃ s1, step v (TimerFire h) s = Some (None, s1) ∧
        calls s1 = (calls s ++ [(cb_groupId (callback t), cb_path (callback t))])%list ∧
  ∃ s2, step v (SendResolved h) s1 = Some (None, s2) ∧
        emitted s2 = (emitted s ++ [message_sent (cb_uiId (callback t)) (sent_status v)])%list ∧
        delivered s2 = (delivered s ++ [(cb_groupId (callback t), cb_path (callback t))])%list ∧
        unlinking s2 = (unlinking s ++ [cb_path (callback t)])%list ∧
        (cb_path (callback t) ∉ disk (settle s2)) ∧
        scheduledTasks s2 !! cb_uiId (callback t) = None.
Proof.
  intros Ht Hdue _ Hfile.
  exists (sending_state h (callback t) s).
  split; [apply step_fire_present; assumption|].
  split; [reflexivity|].
  exists (sent_state v h (callback t) (sending_state h (callback t) s)).
  split; [apply step_resolved; cbn; apply lookup_insert_eq|].
  do 3 (split; [reflexivity|]).
  split; [|cbn; apply lookup_delete_eq].
  apply settle_removes. cbn. apply elem_of_app. right. apply list_elem_of_singleton.
  reflexivity.
Qed.

(** C8, amended: the schedule handler answers 400, creating no task and
    arming no timer, exactly for the requests without a file, the requests
    whose triggerAt parses to a time strictly before the current time and,
    in part_000 only, the requests whose destination, scheduleTime or id
    is empty or absent; every other request (a scheduleTime that does not
    parse or equals the current time and, in server.js, an empty
    destination or id) is accepted and scheduled. *)
Theorem C8_validation v req s :
  let r := (post_schedule v req s).1 in
  let s' := (post_schedule v req s).2 in
  if rejects v req (clock s)
  then res_status r = 400 ∧
       scheduledTasks s' = scheduledTasks s ∧ timers s' = timers s
  else r = Scheduled (uiId req) ∧
       is_Some (scheduledTasks s' !! uiId req) ∧
       is_Some (timers s' !! next_timer s).
Proof.
  unfold rejects. rewrite <- number_lt0_delay.
  destruct (image req) as [name|] eqn:Hf.
  2:{ cbn zeta. rewrite post_schedule_no_file by assumption.
      replace (has_required v req) with false; [cbn; auto|].
      destruct v; cbn; rewrite Hf; rewrite bool_decide_eq_false_2;
        try reflexivity; intros [? ?]; discriminate. }
  assert (Hp : upload_path req (clock s)
               = Some (uploadDir ++ "/" ++ filename (clock s) name))
    by (unfold upload_path; rewrite Hf; reflexivity).
  destruct (has_required v req) eqn:Hreq; cbn [negb orb].
  - destruct (number_lt0 (delay_of req (clock s))) eqn:Hlt; cbn zeta.
    + rewrite (post_schedule_past _ _ _ _ Hp Hreq Hlt). cbn. auto.
    + rewrite (post_schedule_accepted _ _ _ _ Hp Hreq Hlt). cbn.
      rewrite !lookup_insert_eq. eauto.
  - destruct v.
    + cbn in Hreq. rewrite Hf in Hreq.
      rewrite bool_decide_eq_true_2 in Hreq by eauto. discriminate.
    + cbn zeta. rewrite (post_schedule_missing_field _ _ _ Hp Hreq). cbn. auto.
Qed.

(** C10, amended: a schedule request with a file (and, in part_000, with
    non-empty groupId, scheduleTime and uiId) whose scheduleTime does not
    parse has the delay NaN, passes the past-time test and is accepted: the
    task is stored under its id and its timer is armed for the shortest
    delay, 1 ms, so that it fires as soon as the clock has moved by one
    millisecond and starts the send. *)
Theorem C10_unparseable_accepted v req s path str :
  upload_path req (clock s) = Some path →
  scheduleTime req = Some str → Date_parse str = None →
  has_required v req = true →
  delay_of req (clock s) = None ∧
  number_lt0 (delay_of req (clock s)) = false ∧
  accepted_at_once req path s (post_schedule v req s).1 (post_schedule v req s).2 ∧
  ∃ s3, run v [Tick 1; TimerFire (next_timer s)] (post_schedule v req s).2 = Some ([], s3) ∧
        sending s3 !! next_timer s = Some (closure path req).
Proof.
  intros Hp Hstr Hnan Hreq.
  assert (Hd : delay_of req (clock s) = None)
    by (unfold delay_of; rewrite Hstr; cbn; rewrite Hnan; reflexivity).
  split; [assumption|]. split; [rewrite Hd; reflexivity|].
  rewrite (post_schedule_accepted _ _ _ _ Hp Hreq) by (rewrite Hd; reflexivity).
  rewrite Hd. cbn [fst snd]. split.
  - split; [reflexivity|]. cbn. rewrite !lookup_insert_eq. split; reflexivity.
  - eexists. split.
    + cbn [run]. rewrite step_tick by lia.
      erewrite step_fire_present; [reflexivity| | |].
      * cbn. apply lookup_insert_eq.
      * cbn. lia.
      * cbn. apply elem_of_union_l, elem_of_singleton. reflexivity.
    + cbn. apply lookup_insert_eq.
Qed.

(** The three ways cancel can meet the callback of a task in the registry
    whose timer is due and whose file is on disk.  Handled before the
    callback starts: cancellation only, the timer is disarmed and cannot
    fire.  Handled after the callback has finished its delivery: delivery
    only, cancel answers NotFound.  Handled while the send of the callback
    is in flight: cancel still finds the entry, answers Cancelled, removes
    the file and the entry, and the delivery completes with its
    [message_sent] event all the same. *)
Lemma cancel_against_timer v id h t s :
  timers s !! h = Some t → due t ≤ clock s → cb_uiId (callback t) = id →
  scheduledTasks s !! id = Some {| timeout := h; filePath := cb_path (callback t) |} →
  cb_path (callback t) ∈ disk s →
  let sent := message_sent id (sent_status v) in
  let msg := (cb_groupId (callback t), cb_path (callback t)) in
  (∃ s', run v [PostCancel id] s = Some ([Cancelled v], s') ∧
         step v (TimerFire h) s' = None ∧
         emitted s' = emitted s ∧ calls s' = calls s ∧
         (cb_path (callback t) ∉ disk s') ∧ scheduledTasks s' !! id = None) ∧
  (∃ s', run v [TimerFire h; SendResolved h; PostCancel id] s = Some ([NotFound v], s') ∧
         emitted s' = (emitted s ++ [sent])%list ∧
         delivered s' = (delivered s ++ [msg])%list ∧
         (cb_path (callback t) ∉ disk (settle s')) ∧ scheduledTasks s' !! id = None) ∧
  (∃ s', run v [TimerFire h; PostCancel id; SendResolved h] s = Some ([Cancelled v], s') ∧
         emitted s' = (emitted s ++ [sent])%list ∧
         delivered s' = (delivered s ++ [msg])%list ∧
         (cb_path (callback t) ∉ disk s') ∧ scheduledTasks s' !! id = None).
Proof.
  intros Ht Hdue <- Hid Hfile sent msg. subst sent msg.
  set (cb := callback t) in *.
  set (task := {| timeout := h; filePath := cb_path cb |}) in *.
  split; [|split].
  - exists (cancelled_state (cb_uiId cb) task s). cbn [run].
    rewrite (step_cancel_present _ _ _ _ Hid).
    split; [reflexivity|].
    split; [apply step_fire_disarmed; cbn; apply lookup_delete_eq|].
    do 2 (split; [reflexivity|]). cbn.
    split; [|apply lookup_delete_eq].
    rewrite elem_of_difference, elem_of_singleton. tauto.
  - eexists. cbn [run].
    rewrite (step_fire_present _ _ _ _ Ht Hdue Hfile). fold cb.
    rewrite (step_resolved _ h cb) by (cbn; apply lookup_insert_eq).
    rewrite step_cancel_absent by (cbn; apply lookup_delete_eq).
    split; [reflexivity|].
    do 2 (split; [reflexivity|]).
    split; [|cbn; apply lookup_delete_eq].
    apply settle_removes. cbn. apply elem_of_app. right.
    apply list_elem_of_singleton. reflexivity.
  - eexists. cbn [run].
    rewrite (step_fire_present _ _ _ _ Ht Hdue Hfile). fold cb.
    rewrite (step_cancel_present _ _ task) by (cbn; assumption).
    rewrite (step_resolved _ h cb) by (cbn; apply lookup_insert_eq).
    split; [reflexivity|].
    do 2 (split; [reflexivity|]). cbn.
    split; [|apply lookup_delete_eq].
    rewrite elem_of_difference, elem_of_singleton. tauto.
Qed.

(** * More of the scheduler *)

(** ** Steps as state changes *)

Lemma step_transition v e s r s' :
  step v e s = Some (r, s') → transition v s r s'.
Proof.
  destruct e as [req|id|h|h|h err| |ms]; intros H.
  - cbn in H. destruct (post_schedule v req s) as [r0 s0] eqn:E.
    injection H as <- <-. revert E.
    destruct (image req) as [name|] eqn:Hf.
    2:{ rewrite post_schedule_no_file by assumption. intros [= <- <-]. constructor. }
    assert (Hp : upload_path req (clock s)
                 = Some (uploadDir ++ "/" ++ filename (clock s) name))
      by (unfold upload_path; rewrite Hf; reflexivity).
    destruct (has_required v req) eqn:Hreq.
    + destruct (number_lt0 (delay_of req (clock s))) eqn:Hlt.
      * rewrite (post_schedule_past _ _ _ _ Hp Hreq Hlt). intros [= <- <-]. constructor.
      * rewrite (post_schedule_accepted _ _ _ _ Hp Hreq Hlt). intros [= <- <-]. constructor.
    + destruct v.
      * cbn in Hreq. rewrite Hf in Hreq.
        rewrite bool_decide_eq_true_2 in Hreq by eauto. discriminate.
      * rewrite (post_schedule_missing_field _ _ _ Hp Hreq). intros [= <- <-]. constructor.
  - destruct (scheduledTasks s !! id) as [t|] eqn:Hid.
    + rewrite (step_cancel_present _ _ _ _ Hid) in H. injection H as <- <-.
      constructor. assumption.
    + rewrite (step_cancel_absent _ _ _ Hid) in H. injection H as <- <-.
      destruct v; constructor.
  - destruct (timers s !! h) as [t|] eqn:Ht;
      [|rewrite step_fire_disarmed in H by assumption; discriminate].
    destruct (decide (due t ≤ clock s)) as [Hdue|Hdue];
      [|cbn in H; rewrite Ht, bool_decide_eq_false_2 in H by assumption; discriminate].
    destruct (decide (cb_path (callback t) ∈ disk s)) as [Hfile|Hfile].
    + rewrite (step_fire_present _ _ _ _ Ht Hdue Hfile) in H. injection H as <- <-.
      constructor. assumption.
    + rewrite (step_fire_gone _ _ _ _ Ht Hdue Hfile) in H. injection H as <- <-.
      constructor. assumption.
  - destruct (sending s !! h) as [cb|] eqn:Hcb;
      [|cbn in H; rewrite Hcb in H; discriminate].
    rewrite (step_resolved _ _ _ _ Hcb) in H. injection H as <- <-.
    constructor. assumption.
  - destruct (sending s !! h) as [cb|] eqn:Hcb;
      [|cbn in H; rewrite Hcb in H; discriminate].
    rewrite (step_rejected _ _ _ _ _ Hcb) in H. injection H as <- <-.
    constructor. assumption.
  - cbn [step] in H. destruct (unlinking s); [discriminate|].
    injection H as <- <-. constructor.
  - cbn [step] in H. case_bool_decide; [|discriminate].
    injection H as <- <-. constructor.
Qed.

(** What every state change keeps, every run keeps. *)
Lemma run_invariant v (P : State → Prop) :
  (∀ s r s', P s → transition v s r s' → P s') →
  ∀ es s rs s', P s → run v es s = Some (rs, s') → P s'.
Proof.
  intros Hkeep. induction es as [|e es IH]; intros s rs s' Hs; cbn.
  - intros [= _ <-]. assumption.
  - destruct (step v e s) as [[r s1]|] eqn:E; [|discriminate].
    destruct (run v es s1) as [[rs1 s2]|] eqn:E'; [|discriminate].
    intros [= _ <-]. eapply IH; [|eassumption].
    eapply Hkeep; [eassumption|]. eapply step_transition. eassumption.
Qed.

Lemma size_delete_Some {A} (m : gmap nat A) i x :
  m !! i = Some x → size m = S (size (delete i m)).
Proof.
  intros Hi. rewrite <- (insert_delete_id m i x) at 1 by assumption.
  apply map_size_insert_None, lookup_delete_eq.
Qed.

Lemma size_delete_le {A} (m : gmap nat A) i : (size (delete i m) ≤ size m)%nat.
Proof. rewrite map_size_delete. destruct (m !! i); cbn; lia. Qed.

(** ** Bookkeeping of handles, calls and events *)

Definition bookkeeping (s : State) : Prop :=
  timers_issued s ∧ sends_spent s ∧ accounted s.

Lemma bookkeeping_init : bookkeeping init.
Proof.
  split; [|split].
  - intros h t. cbn. rewrite lookup_empty. discriminate.
  - intros h cb. cbn. rewrite lookup_empty. discriminate.
  - repeat split; cbn; rewrite ?map_size_empty; lia.
Qed.

Lemma transition_bookkeeping v s r s' :
  bookkeeping s → transition v s r s' → bookkeeping s'.
Proof.
  intros (Ht & Hs & Hc1 & Hc2 & Hc3) Hstep.
  destruct Hstep as [s status error|s path error|s path error|s req path delay
                    |s id t Hid|s h t Hh|s h t Hh|s h cb Hcb|s h cb e Hcb|s|s ms].
  - exact (conj Ht (conj Hs (conj Hc1 (conj Hc2 Hc3)))).
  - exact (conj Ht (conj Hs (conj Hc1 (conj Hc2 Hc3)))).
  - exact (conj Ht (conj Hs (conj Hc1 (conj Hc2 Hc3)))).
  - assert (Hfresh : timers s !! next_timer s = None).
    { destruct (timers s !! next_timer s) as [t|] eqn:E; [|reflexivity].
      apply Ht in E. lia. }
    unfold bookkeeping, timers_issued, sends_spent, accounted; cbn;
      split; [|split; [|split; [|split]]].
    + intros h t [[<- _]|[_ H]]%lookup_insert_Some; cbn; [lia|].
      apply Ht in H. lia.
    + intros h cb H. destruct (Hs _ _ H) as [Hlt Hoff]. split; [cbn; lia|].
      cbn. rewrite lookup_insert_ne by lia. assumption.
    + assumption.
    + assumption.
    + rewrite map_size_insert_None by assumption. lia.
  - unfold bookkeeping, timers_issued, sends_spent, accounted; cbn;
      split; [|split; [|split; [|split]]].
    + intros h t' [_ H]%lookup_delete_Some. exact (Ht _ _ H).
    + intros h cb H. destruct (Hs _ _ H) as [Hlt Hoff]. split; [assumption|].
      cbn. apply lookup_delete_None. right. assumption.
    + assumption.
    + assumption.
    + pose proof (size_delete_le (timers s) (timeout t)). lia.
  - assert (Hnew : sending s !! h = None).
    { destruct (sending s !! h) as [cb|] eqn:E; [|reflexivity].
      destruct (Hs _ _ E) as [_ Hoff]. congruence. }
    unfold bookkeeping, timers_issued, sends_spent, accounted; cbn;
      split; [|split; [|split; [|split]]].
    + intros h' t' [_ H]%lookup_delete_Some. exact (Ht _ _ H).
    + intros h' cb [[<- _]|[Hne H]]%lookup_insert_Some.
      * split; [exact (Ht _ _ Hh)|apply lookup_delete_eq].
      * destruct (Hs _ _ H) as [Hlt Hoff]. split; [assumption|].
        apply lookup_delete_None. right. assumption.
    + rewrite length_app, map_size_insert_None by assumption. cbn. lia.
    + assumption.
    + rewrite length_app. cbn. rewrite (size_delete_Some _ _ _ Hh) in Hc3. lia.
  - unfold bookkeeping, timers_issued, sends_spent, accounted; cbn;
      split; [|split; [|split; [|split]]].
    + intros h' t' [_ H]%lookup_delete_Some. exact (Ht _ _ H).
    + intros h' cb H. destruct (Hs _ _ H) as [Hlt Hoff]. split; [assumption|].
      apply lookup_delete_None. right. assumption.
    + assumption.
    + assumption.
    + pose proof (size_delete_le (timers s) h). lia.
  - unfold bookkeeping, timers_issued, sends_spent, accounted; cbn;
      split; [|split; [|split; [|split]]].
    + assumption.
    + intros h' cb' [_ H]%lookup_delete_Some. exact (Hs _ _ H).
    + rewrite length_app. cbn. rewrite (size_delete_Some _ _ _ Hcb) in Hc1. lia.
    + rewrite !length_app. cbn. lia.
    + assumption.
  - unfold bookkeeping, timers_issued, sends_spent, accounted; cbn;
      split; [|split; [|split; [|split]]].
    + assumption.
    + intros h' cb' [_ H]%lookup_delete_Some. exact (Hs _ _ H).
    + rewrite length_app. cbn. rewrite (size_delete_Some _ _ _ Hcb) in Hc1. lia.
    + assumption.
    + assumption.
  - exact (conj Ht (conj Hs (conj Hc1 (conj Hc2 Hc3)))).
  - exact (conj Ht (conj Hs (conj Hc1 (conj Hc2 Hc3)))).
Qed.

Lemma run_bookkeeping v es s rs s' :
  bookkeeping s → run v es s = Some (rs, s') → bookkeeping s'.
Proof. apply run_invariant. intros s0 r s1. apply transition_bookkeeping. Qed.

(** X1: in every state reached from the initial one, each
    [client.sendMessage] call made so far is either still in flight, or was
    rejected and logged by [console.error], or was delivered; and there are
    exactly as many [message_sent] events as deliveries. *)
Theorem sends_accounted v es rs s :
  run v es init = Some (rs, s) →
  length (calls s) = (length (delivered s) + length (errors s) + size (sending s))%nat ∧
  length (emitted s) = length (delivered s).
Proof.
  intros Hrun.
  destruct (run_bookkeeping _ _ _ _ _ bookkeeping_init Hrun) as (_ & _ & H1 & H2 & _).
  split; assumption.
Qed.

(** The handles returned so far count the accepted schedule requests. *)
Lemma transition_next_timer v s r s' :
  transition v s r s' →
  next_timer s' = (next_timer s + length (List.filter is_scheduled (option_list r)))%nat.
Proof.
  intros [ | | | | | | | | | | ]; cbn; try lia. destruct v; cbn; lia.
Qed.

Lemma run_next_timer v es : ∀ s rs s',
  run v es s = Some (rs, s') →
  next_timer s' = (next_timer s + length (List.filter is_scheduled rs))%nat.
Proof.
  induction es as [|e es IH]; intros s rs s'; cbn.
  - intros [= <- <-]. cbn. lia.
  - destruct (step v e s) as [[r s1]|] eqn:E; [|discriminate].
    destruct (run v es s1) as [[rs1 s2]|] eqn:E'; [|discriminate].
    intros [= <- <-]. rewrite List.filter_app, length_app.
    rewrite (IH _ _ _ E'). rewrite (transition_next_timer _ _ _ _ (step_transition _ _ _ _ _ E)).
    lia.
Qed.

(** X2: the server never calls [client.sendMessage] more often than it
    has accepted schedule requests: in a run from the initial state the
    number of send calls, and so the number of [message_sent] events, is at
    most the number of answers [{status:"Scheduled"}]. *)
Theorem sends_bounded_by_accepted v es rs s :
  run v es init = Some (rs, s) →
  (length (emitted s) ≤ length (calls s))%nat ∧
  (length (calls s) ≤ length (List.filter is_scheduled rs))%nat.
Proof.
  intros Hrun.
  destruct (run_bookkeeping _ _ _ _ _ bookkeeping_init Hrun) as (_ & _ & H1 & H2 & H3).
  pose proof (run_next_timer _ _ _ _ _ Hrun) as Hn. cbn in Hn.
  split; lia.
Qed.

(** ** A timer fires once *)

Lemma transition_spent v h s r s' :
  spent h s → transition v s r s' → spent h s'.
Proof.
  intros [Hlt Hoff] Hstep. unfold spent.
  destruct Hstep; cbn; try (split; assumption).
  - split; [lia|]. rewrite lookup_insert_ne by lia. assumption.
  - split; [assumption|]. apply lookup_delete_None. right. assumption.
  - split; [assumption|]. apply lookup_delete_None. right. assumption.
  - split; [assumption|]. apply lookup_delete_None. right. assumption.
Qed.

(** A handle that was returned and is not armed never fires again. *)
Lemma spent_never_fires v h es : ∀ s rs s',
  spent h s → run v es s = Some (rs, s') → List.filter (is_fire h) es = [].
Proof.
  induction es as [|e es IH]; intros s rs s' Hsp; cbn; [reflexivity|].
  destruct (step v e s) as [[r s1]|] eqn:E; [|discriminate].
  destruct (run v es s1) as [[rs1 s2]|] eqn:E'; [|discriminate].
  intros _.
  assert (Hfire : is_fire h e = false).
  { destruct e; try reflexivity. cbn. case_bool_decide; [|reflexivity]. subst.
    rewrite step_fire_disarmed in E by apply Hsp. discriminate. }
  rewrite Hfire. eapply IH; [|eassumption].
  eapply transition_spent; [eassumption|]. eapply step_transition. eassumption.
Qed.




(** X4: once cancel has found an entry and answered Cancelled, the timer
    that was stored in the entry never fires, whatever happens next. *)
Theorem cancelled_timer_never_fires v id t es s rs s' :
  handles_issued s →
  scheduledTasks s !! id = Some t →
  run v (PostCancel id :: es) s = Some (rs, s') →
  List.filter (is_fire (timeout t)) es = [].
Proof.
  intros Hwf Hid. cbn [run]. rewrite (step_cancel_present _ _ _ _ Hid).
  destruct (run v es (cancelled_state id t s)) as [[rs1 s2]|] eqn:E; [|discriminate].
  intros _. eapply spent_never_fires; [|eassumption].
  split; [exact (Hwf _ _ Hid)|cbn; apply lookup_delete_eq].
Qed.

(** ** When the timer is due *)

(** X5: an accepted request whose triggerAt is between 1 ms and 2^31-1 ms
    ahead arms its timer for triggerAt exactly: as long as that timer is
    armed it cannot fire while the clock is before triggerAt, and it can
    fire as soon as the clock has reached it. *)
Theorem timer_due_at_triggerAt v req s path triggerAt :
  upload_path req (clock s) = Some path →
  has_required v req = true →
  Date_getTime (scheduleTime req) = Some triggerAt →
  1 ≤ triggerAt - clock s ≤ TIMEOUT_MAX →
  (post_schedule v req s).1 = Scheduled (uiId req) ∧
  timers (post_schedule v req s).2 !! next_timer s
    = Some {| due := triggerAt; callback := closure path req |} ∧
  ∀ s', timers s' !! next_timer s
          = Some {| due := triggerAt; callback := closure path req |} →
        (step v (TimerFire (next_timer s)) s' = None ↔ clock s' < triggerAt).
Proof.
  intros Hp Hreq Ht Hrange.
  assert (Hd : delay_of req (clock s) = Some (triggerAt - clock s))
    by (unfold delay_of; rewrite Ht; reflexivity).
  rewrite (post_schedule_accepted _ _ _ _ Hp Hreq)
    by (rewrite Hd; cbn; apply bool_decide_eq_false_2; lia).
  rewrite Hd. cbn [fst snd]. split; [reflexivity|]. split.
  - cbn. rewrite lookup_insert_eq, bool_decide_eq_true_2 by assumption.
    do 2 f_equal. lia.
  - intros s' Hs'. cbn [step]. rewrite Hs'. cbn [due].
    case_bool_decide; split; intros; try discriminate; try lia; reflexivity.
Qed.

(** X6: an accepted request whose triggerAt is the current time, or more
    than 2^31-1 ms (about 24.8 days) ahead, has its timer armed for one
    millisecond from now: it fires at once, long before a far triggerAt. *)
Theorem timer_due_at_once v req s path triggerAt :
  upload_path req (clock s) = Some path →
  has_required v req = true →
  Date_getTime (scheduleTime req) = Some triggerAt →
  triggerAt = clock s ∨ TIMEOUT_MAX < triggerAt - clock s →
  (post_schedule v req s).1 = Scheduled (uiId req) ∧
  timers (post_schedule v req s).2 !! next_timer s
    = Some {| due := clock s + 1; callback := closure path req |}.
Proof.
  intros Hp Hreq Ht Hrange.
  assert (Hd : delay_of req (clock s) = Some (triggerAt - clock s))
    by (unfold delay_of; rewrite Ht; reflexivity).
  assert (HT : 0 < TIMEOUT_MAX) by reflexivity.
  rewrite (post_schedule_accepted _ _ _ _ Hp Hreq)
    by (rewrite Hd; cbn; apply bool_decide_eq_false_2; lia).
  rewrite Hd. cbn [fst snd]. split; [reflexivity|].
  cbn. rewrite lookup_insert_eq, bool_decide_eq_false_2 by lia. reflexivity.
Qed.

(** ** What a schedule leaves alone *)


(** X9: scheduling under an id that is not in the registry and cancelling
    that id right away answers Scheduled and Cancelled and leaves the
    registry and the timers exactly as they were before; the uploaded file
    is gone without any removal left pending. *)
Theorem schedule_then_cancel v req s path :
  timers_issued s →
  scheduledTasks s !! uiId req = None →
  upload_path req (clock s) = Some path →
  has_required v req = true →
  number_lt0 (delay_of req (clock s)) = false →
  ∃ s', run v [PostSchedule req; PostCancel (uiId req)] s
        = Some ([Scheduled (uiId req); Cancelled v], s') ∧
        scheduledTasks s' = scheduledTasks s ∧
        timers s' = timers s ∧
        (path ∉ disk s') ∧
        unlinking s' = unlinking s ∧
        calls s' = calls s ∧ emitted s' = emitted s.
Proof.
  intros Hti Hid Hp Hreq Hlt.
  assert (Hfresh : timers s !! next_timer s = None).
  { destruct (timers s !! next_timer s) as [t|] eqn:E; [|reflexivity].
    apply Hti in E. lia. }
  eexists. cbn [run]. cbn [step].
  rewrite (post_schedule_accepted _ _ _ _ Hp Hreq Hlt).
  rewrite (post_cancel_present _ _ {| timeout := next_timer s; filePath := path |})
    by (cbn; apply lookup_insert_eq).
  split; [reflexivity|]. cbn.
  split; [apply delete_insert_id; assumption|].
  split; [apply delete_insert_id; assumption|].
  split; [|repeat split].
  rewrite elem_of_difference, elem_of_singleton. tauto.
Qed.

(** ** How the callback and cancel compose *)

(** X10: when the timer fires and the file is no longer on disk, nothing
    is sent, emitted or logged: the callback only deletes the entry of its
    id, and the timer is spent. *)
Theorem fire_without_file v h t s :
  timers s !! h = Some t → due t ≤ clock s →
  cb_path (callback t) ∉ disk s →
  ∃ s', step v (TimerFire h) s = Some (None, s') ∧
        scheduledTasks s' = delete (cb_uiId (callback t)) (scheduledTasks s) ∧
        timers s' !! h = None ∧
        sending s' = sending s ∧ calls s' = calls s ∧
        emitted s' = emitted s ∧ errors s' = errors s ∧
        disk s' = disk s ∧ unlinking s' = unlinking s.
Proof.
  intros Ht Hdue Hfile. eexists.
  split; [exact (step_fire_gone _ _ _ _ Ht Hdue Hfile)|]. cbn.
  split; [reflexivity|]. split; [apply lookup_delete_eq|]. repeat split.
Qed.

(** X11: the callback deletes the entry of its id when its send resolves,
    whichever timer that entry holds.  After two requests with one id, the
    delivery of the first removes the entry of the second: cancel of the id
    then answers NotFound although the second timer is still armed. *)
Theorem delivery_orphans_later_task v h cb t tm s :
  sending s !! h = Some cb →
  scheduledTasks s !! cb_uiId cb = Some t →
  timers s !! timeout t = Some tm →
  ∃ s', run v [SendResolved h; PostCancel (cb_uiId cb)] s = Some ([NotFound v], s') ∧
        scheduledTasks s' !! cb_uiId cb = None ∧
        timers s' !! timeout t = Some tm.
Proof.
  intros Hcb Hid Htm. eexists. cbn [run].
  rewrite (step_resolved _ _ _ _ Hcb).
  rewrite step_cancel_absent by (cbn; apply lookup_delete_eq).
  split; [reflexivity|]. cbn. split; [apply lookup_delete_eq|assumption].
Qed.

(** X12: a task whose send was rejected stays in the registry, and a
    cancel of its id then answers Cancelled, removes its file and deletes
    the entry. *)
Theorem cancel_after_failed_send v h cb e t s :
  sending s !! h = Some cb →
  scheduledTasks s !! cb_uiId cb = Some t →
  ∃ s', run v [SendRejected h e; PostCancel (cb_uiId cb)] s = Some ([Cancelled v], s') ∧
        scheduledTasks s' !! cb_uiId cb = None ∧
        (filePath t ∉ disk s') ∧
        errors s' = (errors s ++ [logged v cb e])%list ∧
        emitted s' = emitted s.
Proof.
  intros Hcb Hid. eexists. cbn [run].
  rewrite (step_rejected _ _ _ _ _ Hcb).
  rewrite (step_cancel_present _ _ t) by (cbn; assumption).
  split; [reflexivity|]. cbn. split; [apply lookup_delete_eq|].
  split; [|split; reflexivity].
  rewrite elem_of_difference, elem_of_singleton. tauto.
Qed.

(** ** The registry and the timers agree *)

Lemma transition_registry_agrees v s r s' :
  handles_issued s → registry_agrees s → transition v s r s' → registry_agrees s'.
Proof.
  intros Hwf Hag Hstep. unfold registry_agrees.
  destruct Hstep as [s status error|s path error|s path error|s req path delay
                    |s id t Hid|s h t Hh|s h t Hh|s h cb Hcb|s h cb e Hcb|s|s ms];
    cbn; try exact Hag.
  - intros id t tm [[<- <-]|[Hne Hid]]%lookup_insert_Some; cbn.
    + rewrite lookup_insert_eq. intros [= <-]. cbn. split; reflexivity.
    + rewrite lookup_insert_ne by (apply Hwf in Hid; lia). apply Hag. assumption.
  - intros id' t' tm [_ Hid']%lookup_delete_Some [_ Htm]%lookup_delete_Some.
    eapply Hag; eassumption.
  - intros id' t' tm Hid' [_ Htm]%lookup_delete_Some. eapply Hag; eassumption.
  - intros id' t' tm [_ Hid']%lookup_delete_Some [_ Htm]%lookup_delete_Some.
    eapply Hag; eassumption.
  - intros id' t' tm [_ Hid']%lookup_delete_Some Htm. eapply Hag; eassumption.
Qed.

Lemma transition_handles_issued v s r s' :
  handles_issued s → transition v s r s' → handles_issued s'.
Proof.
  intros Hwf Hstep. unfold handles_issued.
  destruct Hstep as [s status error|s path error|s path error|s req path delay
                    |s id t Hid|s h t Hh|s h t Hh|s h cb Hcb|s h cb e Hcb|s|s ms];
    cbn; try exact Hwf.
  - intros id t [[_ <-]|[_ Hx]]%lookup_insert_Some; cbn; [lia|]. apply Hwf in Hx. lia.
  - intros id' t' [_ Hx]%lookup_delete_Some. exact (Hwf _ _ Hx).
  - intros id' t' [_ Hx]%lookup_delete_Some. exact (Hwf _ _ Hx).
  - intros id' t' [_ Hx]%lookup_delete_Some. exact (Hwf _ _ Hx).
Qed.

(** X13: in every state reached from the initial one, the timer stored
    in a registry entry, as long as it is armed, is the timer whose
    callback sends the file of that entry under the id of that entry: a
    cancel disarms the delivery of the very file it removes. *)
Theorem registry_matches_timers v es rs s id t tm :
  run v es init = Some (rs, s) →
  scheduledTasks s !! id = Some t →
  timers s !! timeout t = Some tm →
  cb_uiId (callback tm) = id ∧ cb_path (callback tm) = filePath t.
Proof.
  intros Hrun.
  assert (H : handles_issued s ∧ registry_agrees s).
  { eapply (run_invariant v (λ s, handles_issued s ∧ registry_agrees s));
      [|split|exact Hrun].
    - intros s0 r s1 [Hwf Hag] Hstep. split.
      + eapply transition_handles_issued; eassumption.
      + eapply transition_registry_agrees; eassumption.
    - apply handles_issued_init.
    - intros id' t' tm'. cbn. rewrite lookup_empty. discriminate. }
  apply H.
Qed.

(** ** The names of the uploads *)

Lemma pretty_N_go_dashless x : ∀ s,
  dashless s = true → dashless (pretty_N_go x s) = true.
Proof.
  induction (N.lt_wf_0 x) as [x _ IH]; intros s Hs.
  destruct (decide (x = 0)%N) as [->|Hx]; [rewrite pretty_N_go_0; assumption|].
  rewrite pretty_N_go_step by lia. apply IH; [apply N.div_lt; lia|].
  cbn. rewrite Hs, andb_true_r.
  unfold pretty_N_char. repeat case_match; reflexivity.
Qed.

Lemma pretty_Z_dashless (z : Z) : 0 ≤ z → dashless (pretty z) = true.
Proof.
  destruct z as [|p|p]; intros Hz; [reflexivity| |lia].
  unfold pretty, pretty_Z, pretty, pretty_positive, pretty, pretty_N.
  case_decide; [reflexivity|]. apply pretty_N_go_dashless. reflexivity.
Qed.

Lemma append_cons c (u s : string) : String c u ++ s = String c (u ++ s).
Proof. reflexivity. Qed.

Lemma append_nil (s : string) : "" ++ s = s.
Proof. reflexivity. Qed.

Lemma append_dash_inj (u : string) : ∀ u' x y,
  dashless u = true → dashless u' = true →
  u ++ "-" ++ x = u' ++ "-" ++ y → u = u' ∧ x = y.
Proof.
  induction u as [|c u IH]; intros [|c' u'] x y Hu Hu';
    rewrite ?append_cons, ?append_nil.
  - intros [= ->]. split; reflexivity.
  - intros [= <- _]. cbn in Hu'. discriminate.
  - intros [= -> _]. cbn in Hu. discriminate.
  - intros [= <- H]. cbn in Hu, Hu'. apply andb_true_iff in Hu as [_ Hu].
    apply andb_true_iff in Hu' as [_ Hu'].
    destruct (IH _ _ _ Hu Hu' H) as [-> ->]. split; reflexivity.
Qed.

(** X14: the file names multer is given tell the uploads apart by time
    stamp and original name, and by nothing else: two uploads are stored
    under the same path exactly when they carry the same original name and
    arrive in the same millisecond. *)
Theorem upload_paths_collide req req' now now' path path' :
  0 ≤ now → 0 ≤ now' →
  upload_path req now = Some path →
  upload_path req' now' = Some path' →
  path = path' ↔ now = now' ∧ image req = image req'.
Proof.
  intros Hn Hn' (name & Hf & ->)%upload_path_Some (name' & Hf' & ->)%upload_path_Some.
  rewrite Hf, Hf'. split.
  - intros H. apply (inj (String.app uploadDir)) in H.
    apply (inj (String.app "/")) in H. unfold filename in H.
    apply append_dash_inj in H as [H ->]; [|apply pretty_Z_dashless; assumption..].
    apply (inj pretty) in H. subst. split; reflexivity.
  - intros [-> [= ->]]. reflexivity.
Qed.

(** ** From the request to the delivery *)

Lemma timer_after_range delay : 1 ≤ timer_after delay ≤ TIMEOUT_MAX.
Proof.
  assert (HT : 1 ≤ TIMEOUT_MAX) by (intros [=]).
  destruct delay as [d|]; cbn; [|lia]. case_bool_decide; lia.
Qed.

Lemma step_post_schedule v req s :
  step v (PostSchedule req) s
  = Some (Some (post_schedule v req s).1, (post_schedule v req s).2).
Proof. cbn. destruct (post_schedule v req s). reflexivity. Qed.

(** X18: an accepted request that is left alone is delivered when its
    time has come: once the clock has advanced by the delay of its timer
    the timer fires, [client.sendMessage] is called with the group and the
    file of the request, and when the call resolves the [message_sent]
    event with the id of the request is emitted, the entry is gone from the
    registry and the file is gone once its removal is performed. *)
Theorem scheduled_request_is_delivered v req s path :
  upload_path req (clock s) = Some path →
  has_required v req = true →
  number_lt0 (delay_of req (clock s)) = false →
  ∃ s', run v [PostSchedule req;
               Tick (timer_after (delay_of req (clock s)));
               TimerFire (next_timer s);
               SendResolved (next_timer s)] s
        = Some ([Scheduled (uiId req)], s') ∧
        calls s' = (calls s ++ [(groupId req, path)])%list ∧
        delivered s' = (delivered s ++ [(groupId req, path)])%list ∧
        emitted s' = (emitted s ++ [message_sent (uiId req) (sent_status v)])%list ∧
        scheduledTasks s' !! uiId req = None ∧
        timers s' !! next_timer s = None ∧
        (path ∉ disk (settle s')).
Proof.
  intros Hp Hreq Hlt.
  pose proof (timer_after_range (delay_of req (clock s))) as Hrange.
  eexists. cbn [run].
  rewrite step_post_schedule, (post_schedule_accepted _ _ _ _ Hp Hreq Hlt).
  cbn [fst snd]. rewrite step_tick by lia.
  erewrite step_fire_present;
    [|cbn; apply lookup_insert_eq|cbn; lia
     |cbn; apply elem_of_union_l, elem_of_singleton; reflexivity].
  erewrite step_resolved by (cbn; apply lookup_insert_eq).
  split; [reflexivity|]. cbn.
  do 3 (split; [reflexivity|]).
  split; [apply lookup_delete_eq|]. split; [apply lookup_delete_eq|].
  rewrite elem_of_difference, elem_of_list_to_set, elem_of_app, list_elem_of_singleton.
  tauto.
Qed.

(** The bookkeeping holds in every state reached from [init]. *)
Lemma after_bookkeeping v es : bookkeeping (after v es).
Proof.
  unfold after. destruct (run v es init) as [[rs s]|] eqn:E.
  - eapply run_bookkeeping; [apply bookkeeping_init|eassumption].
  - apply bookkeeping_init.
Qed.

(** The state a successful run from [init] ends in is [after]. *)
Lemma run_after v es rs s : run v es init = Some (rs, s) → s = after v es.
Proof. intros H. unfold after. rewrite H. reflexivity. Qed.

End Program.

(** * What a cancel leaves alone *)

(** X7: a cancel that finds its entry touches nothing but that entry, the
    timer stored in it and the file stored in it: every other entry, timer
    and file, the sends in flight, the events and the log stay as they
    were. *)
Theorem cancel_frame v id t s :
  scheduledTasks s !! id = Some t →
  let s' := (post_cancel v id s).2 in
  (∀ id', id' ≠ id → scheduledTasks s' !! id' = scheduledTasks s !! id') ∧
  (∀ h, h ≠ timeout t → timers s' !! h = timers s !! h) ∧
  (∀ p, p ≠ filePath t → p ∈ disk s' ↔ p ∈ disk s) ∧
  sending s' = sending s ∧ calls s' = calls s ∧ delivered s' = delivered s ∧
  emitted s' = emitted s ∧ errors s' = errors s ∧ unlinking s' = unlinking s ∧
  next_timer s' = next_timer s.
Proof.
  intros Hid.
  assert (Hs : (post_cancel v id s).2 = cancelled_state id t s).
  { destruct v;
      cbv [post_cancel server_post_cancel part000_post_cancel bind ret tasks_get
           clearTimeout fs_existsSync fs_unlinkSync tasks_delete];
      rewrite Hid; cbn; case_bool_decide as Hfile; cbn; apply State_eq; cbn;
      try reflexivity;
      (apply set_eq; intros x; rewrite elem_of_difference, elem_of_singleton;
       split; [intros Hx; split; [exact Hx|intros ->; exact (Hfile Hx)]
              |intros [Hx _]; exact Hx]). }
  cbn zeta. rewrite Hs. cbn.
  split; [intros id' Hne; apply lookup_delete_ne; intros Heq; exact (Hne (eq_sym Heq))|].
  split; [intros h Hne; apply lookup_delete_ne; intros Heq; exact (Hne (eq_sym Heq))|].
  split; [|repeat split].
  intros p Hne. rewrite elem_of_difference, elem_of_singleton.
  split; [intros [Hp _]; exact Hp|intros Hp; split; [exact Hp|exact Hne]].
Qed.

(** * The client and /api/groups *)

Lemma client_run_isReady es : ∀ c,
  isReady (client_run es c) = last_word (isReady c) es.
Proof.
  induction es as [|e es IH]; intros c; [reflexivity|].
  cbn. unfold client_run in IH. rewrite IH. destruct e; reflexivity.
Qed.

Lemma client_run_broadcasts es : ∀ c,
  broadcasts (client_run es c) = (broadcasts c ++ List.map relay es)%list ∧
  initialized (client_run es c)
  = (initialized c + length (List.filter is_disconnected es))%nat.
Proof.
  induction es as [|e es IH]; intros c; cbn.
  - rewrite app_nil_r. split; [reflexivity|lia].
  - unfold client_run in IH. destruct (IH (client_on c e)) as [-> ->].
    destruct e; cbn; rewrite <- app_assoc; split; try reflexivity; lia.
Qed.

(** X15: GET /api/groups is gated by the last word of the client.  After
    any sequence of client events since start-up, it calls
    [client.getChats()] when the last of the ready and disconnected events
    was ready, and otherwise answers 503 without calling the client; QR
    events change nothing, and before any ready the answer is 503. *)
Theorem groups_gate v es getChats :
  if last_word false es
  then called_getChats (get_groups v (client_run es startup) getChats) = true ∧
       groups_status (get_groups v (client_run es startup) getChats) ≠ 503
  else called_getChats (get_groups v (client_run es startup) getChats) = false ∧
       groups_status (get_groups v (client_run es startup) getChats) = 503.
Proof.
  pose proof (client_run_isReady es startup) as H. cbn in H.
  destruct v; cbn; unfold server_get_groups, part000_get_groups; rewrite H;
    destruct (last_word false es); cbn;
    try (split; reflexivity); destruct getChats; cbn; split; (reflexivity || discriminate).
Qed.

(** X16: when the client is ready, GET /api/groups answers 200 with
    exactly the chats that are groups, each as its name and serialized id,
    in the order the client gave them, and 500 with the message of the
    error when [getChats] fails. *)
Theorem groups_answer v c getChats :
  isReady c = true →
  match getChats with
  | resolved chats =>
      groups_status (get_groups v c getChats) = 200 ∧
      ∃ groups, groups_body (get_groups v c getChats) = groups_json groups ∧
        (∀ g, In g groups ↔ ∃ chat, In chat chats ∧ isGroup chat = true ∧
                                   g = {| group_name := chat_name chat;
                                          group_id := chat_id chat |}) ∧
        length groups = length (List.filter isGroup chats) ∧
        (∀ i g, groups !! i = Some g →
           to_group <$> (List.filter isGroup chats !! i) = Some g)
  | rejected message =>
      groups_status (get_groups v c getChats) = 500 ∧
      groups_body (get_groups v c getChats) = groups_error message
  end.
Proof.
  intros Hready. destruct getChats as [chats|message].
  - assert (Hb : get_groups v c (resolved chats)
                 = {| called_getChats := true; groups_log := []; groups_status := 200;
                      groups_body := groups_json (List.map to_group (List.filter isGroup chats)) |})
      by (destruct v; cbn; unfold server_get_groups, part000_get_groups;
          rewrite Hready; reflexivity).
    rewrite Hb. cbn. split; [reflexivity|].
    exists (List.map to_group (List.filter isGroup chats)).
    split; [reflexivity|]. split; [|split].
    + intros g. rewrite in_map_iff. split.
      * intros (chat & <- & [Hin Hg]%filter_In). exists chat. auto.
      * intros (chat & Hin & Hg & ->). exists chat. split; [reflexivity|].
        apply filter_In. auto.
    + apply length_map.
    + intros i g. change (List.map to_group) with (fmap (M:=list) to_group).
      rewrite list_lookup_fmap. auto.
  - destruct v; cbn; unfold server_get_groups, part000_get_groups;
      rewrite Hready; cbn; split; reflexivity.
Qed.

(** X17: every event of the client is relayed to the sockets once and in
    order (the QR code as [qr_code], ready as [ready(true)], a disconnect
    with its reason), and [client.initialize()] has been called once at
    start-up and once more for every disconnect. *)
Theorem client_events_relayed es :
  broadcasts (client_run es startup) = List.map relay es ∧
  initialized (client_run es startup) = S (length (List.filter is_disconnected es)).
Proof.
  destruct (client_run_broadcasts es startup) as [-> ->]. split; reflexivity.
Qed.

(** * The claims on the deployment of the Dockerfile *)

Section Examples.

#[local] Abbreviation run := (run Demo.uploadDir Demo.Date_parse).
#[local] Abbreviation step := (step Demo.uploadDir Demo.Date_parse).
#[local] Abbreviation post_schedule := (post_schedule Demo.uploadDir Demo.Date_parse).
#[local] Abbreviation after := (after Demo.uploadDir Demo.Date_parse).
#[local] Abbreviation answers := (answers Demo.uploadDir Demo.Date_parse).

(** The scenario of the specification: task "ui-1", destination "grp@x",
    file photo.jpg, five seconds ahead. *)
#[local] Abbreviation ui1 := (Demo.request (Some "ui-1") Demo.ahead "photo.jpg").
#[local] Abbreviation photo := ("/usr/src/app/uploads/1700000000000-photo.jpg").

(** The task "ui-1" is pending ... *)
#[local] Abbreviation pending := (Demo.boot ++ [PostSchedule ui1])%list.
(** ... and its timer is due. *)
#[local] Abbreviation due_now := (Demo.boot ++ [PostSchedule ui1; Tick 5000])%list.

Lemma C9_cancel_twice_witness :
  (∃ s', run ServerJs [PostCancel (Some "ui-1"); PostCancel (Some "ui-1")]
             (after ServerJs pending)
         = Some ([Cancelled ServerJs; NotFound ServerJs], s')) ∧
  res_status (Cancelled ServerJs) = 200 ∧ res_status (NotFound ServerJs) = 404.
Proof.
  apply (C9_cancel_twice Demo.uploadDir Demo.Date_parse ServerJs (Some "ui-1")).
  vm_compute. eauto.
Defined.

(** In part_000 the answer of a successful cancel is not [{status:"Cancelled"}]. *)
Lemma C5_cancel_body_counterexample :
  ¬ cancel_contract Part000 (Some "ui-1") (after Part000 pending).
Proof.
  unfold cancel_contract. intros H. vm_compute in H.
  destruct H as (_ & _ & _ & H). discriminate H.
Qed.

(** A second request for "ui-1" while the first is pending is answered 200. *)
Lemma C2_duplicate_counterexample :
  ¬ duplicate_contract Demo.uploadDir Demo.Date_parse ServerJs
      (Demo.request (Some "ui-1") Demo.ahead "other.jpg") (after ServerJs pending) ∧
  ¬ duplicate_contract Demo.uploadDir Demo.Date_parse Part000
      (Demo.request (Some "ui-1") Demo.ahead "other.jpg") (after Part000 pending).
Proof.
  split; intros H;
    (destruct H as [H _]; [vm_compute; eauto|vm_compute in H; discriminate H]).
Qed.

Lemma C2_duplicate_id_overwrites_witness :
  ∃ s', post_schedule ServerJs (Demo.request (Some "ui-1") Demo.ahead "other.jpg")
          (after ServerJs pending)
        = (Scheduled (Some "ui-1"), s') ∧
        scheduledTasks s' !! Some "ui-1"
          = Some {| timeout := 1; filePath := "/usr/src/app/uploads/1700000000000-other.jpg" |} ∧
        timers s' !! 0%nat = timers (after ServerJs pending) !! 0%nat.
Proof.
  destruct (C2_duplicate_id_overwrites Demo.uploadDir Demo.Date_parse ServerJs
              (Demo.request (Some "ui-1") Demo.ahead "other.jpg")
              (after ServerJs pending)
              {| timeout := 0; filePath := photo |}
              "/usr/src/app/uploads/1700000000000-other.jpg")
    as (s' & Hr & Htask & _ & _ & Hold & _).
  - apply after_handles_issued.
  - vm_compute. reflexivity.
  - vm_compute. reflexivity.
  - vm_compute. reflexivity.
  - vm_compute. reflexivity.
  - exists s'. split; [exact Hr|]. split; [exact Htask|exact Hold].
Defined.

(** A request for exactly the current time is answered 200. *)
Lemma C4_now_counterexample :
  ¬ past_time_contract Demo.uploadDir Demo.Date_parse ServerJs
      (Demo.request (Some "ui-1") Demo.now "photo.jpg") (after ServerJs Demo.boot) ∧
  ¬ past_time_contract Demo.uploadDir Demo.Date_parse Part000
      (Demo.request (Some "ui-1") Demo.now "photo.jpg") (after Part000 Demo.boot).
Proof.
  split; intros H;
    (destruct (H 1700000000000) as [H' _];
     [vm_compute; reflexivity|vm_compute; intros [=]|vm_compute in H'; discriminate H']).
Qed.

Lemma C4_past_time_rejected_witness :
  res_status (post_schedule Part000 (Demo.request (Some "ui-1") Demo.ago "photo.jpg")
                (after Part000 Demo.boot)).1 = 400 ∧
  scheduledTasks (post_schedule Part000 (Demo.request (Some "ui-1") Demo.ago "photo.jpg")
                    (after Part000 Demo.boot)).2 = ∅.
Proof.
  destruct (C4_past_time_rejected Demo.uploadDir Demo.Date_parse Part000
              (Demo.request (Some "ui-1") Demo.ago "photo.jpg")
              (after Part000 Demo.boot) 1699996400000)
    as (Hr & Ht & _).
  - vm_compute. reflexivity.
  - vm_compute. reflexivity.
  - split; [exact Hr|]. rewrite Ht. vm_compute. reflexivity.
Defined.

(** Two uploads named photo.jpg in the same millisecond share one path.
    Cancelling "ui-1" removes the file; when the timer of "ui-2" fires,
    "ui-2" is in the registry and nothing is sent. *)
Lemma C7_shared_file_counterexample :
  ¬ fire_contract Demo.uploadDir Demo.Date_parse ServerJs 1
      (after ServerJs (Demo.boot ++
         [PostSchedule ui1;
          PostSchedule (Demo.request (Some "ui-2") Demo.ahead "photo.jpg");
          PostCancel (Some "ui-1"); Tick 5000])).
Proof.
  intros H.
  destruct (H {| due := 1700000005000;
                 callback := {| cb_path := photo; cb_groupId := Some "grp@x";
                                cb_uiId := Some "ui-2" |} |})
    as (s1 & Hstep & Hcalls & _).
  - vm_compute. reflexivity.
  - vm_compute. intros [=].
  - vm_compute. reflexivity.
  - vm_compute in Hstep. injection Hstep as <-.
    vm_compute in Hcalls. discriminate Hcalls.
Qed.

Lemma C7_fire_delivers_witness :
  ∃ s1 s2, step ServerJs (TimerFire 0) (after ServerJs due_now) = Some (None, s1) ∧
           calls s1 = [(Some "grp@x", photo)] ∧
           step ServerJs (SendResolved 0) s1 = Some (None, s2) ∧
           emitted s2 = [message_sent (Some "ui-1") None] ∧
           (photo ∉ disk (settle s2)) ∧
           scheduledTasks s2 !! Some "ui-1" = None.
Proof.
  destruct (C7_fire_delivers Demo.uploadDir Demo.Date_parse ServerJs 0
              {| due := 1700000005000;
                 callback := {| cb_path := photo; cb_groupId := Some "grp@x";
                                cb_uiId := Some "ui-1" |} |}
              (after ServerJs due_now))
    as (s1 & Hfire & Hcalls & s2 & Hsent & Hemit & _ & _ & Hfile & Hgone).
  - vm_compute. reflexivity.
  - vm_compute. intros [=].
  - vm_compute. reflexivity.
  - apply (bool_decide_unpack _). vm_compute. exact I.
  - exists s1, s2. repeat split; assumption.
Defined.

(** A scheduleTime that is not a date is accepted by both copies, and an
    empty destination by server.js. *)
Lemma C8_validation_counterexample :
  ¬ validation_contract Demo.uploadDir Demo.Date_parse ServerJs
      (Demo.request (Some "ui-1") Demo.garbage "photo.jpg") (after ServerJs Demo.boot) ∧
  ¬ validation_contract Demo.uploadDir Demo.Date_parse Part000
      (Demo.request (Some "ui-1") Demo.garbage "photo.jpg") (after Part000 Demo.boot) ∧
  ¬ validation_contract Demo.uploadDir Demo.Date_parse ServerJs
      {| groupId := Some ""; scheduleTime := Demo.ahead; uiId := Some "ui-1";
         image := Some "photo.jpg" |} (after ServerJs Demo.boot).
Proof.
  split; [|split]; intros H.
  - destruct H as [H _]; [right; right; left; exact I|vm_compute in H; discriminate H].
  - destruct H as [H _]; [right; right; left; exact I|vm_compute in H; discriminate H].
  - destruct H as [H _]; [right; left; reflexivity|vm_compute in H; discriminate H].
Qed.

(** part_000 turns down a request whose scheduleTime is not a date when
    its id is absent, and when the scheduleTime is the empty string. *)
Lemma C10_part000_counterexample :
  ¬ unparseable_contract Demo.uploadDir Demo.Date_parse Part000
      (Demo.request None Demo.garbage "photo.jpg") (after Part000 Demo.boot) ∧
  ¬ unparseable_contract Demo.uploadDir Demo.Date_parse Part000
      (Demo.request (Some "ui-1") (Some "") "photo.jpg") (after Part000 Demo.boot).
Proof.
  split; intros H.
  - destruct (H photo "next tuesday") as [H' _];
      [vm_compute; reflexivity..|vm_compute in H'; discriminate H'].
  - destruct (H photo "") as [H' _];
      [vm_compute; reflexivity..|vm_compute in H'; discriminate H'].
Qed.

Lemma C10_unparseable_accepted_witness :
  accepted_at_once (Demo.request (Some "ui-1") Demo.garbage "photo.jpg") photo
    (after Part000 Demo.boot)
    (post_schedule Part000 (Demo.request (Some "ui-1") Demo.garbage "photo.jpg")
       (after Part000 Demo.boot)).1
    (post_schedule Part000 (Demo.request (Some "ui-1") Demo.garbage "photo.jpg")
       (after Part000 Demo.boot)).2.
Proof.
  destruct (C10_unparseable_accepted Demo.uploadDir Demo.Date_parse Part000
              (Demo.request (Some "ui-1") Demo.garbage "photo.jpg")
              (after Part000 Demo.boot) photo "next tuesday")
    as (_ & _ & H & _).
  - vm_compute. reflexivity.
  - reflexivity.
  - vm_compute. reflexivity.
  - vm_compute. reflexivity.
  - exact H.
Defined.

(** The timer of "ui-1" has fired and its send is in flight: cancel still
    answers Cancelled, and the message is sent all the same. *)
Lemma race_contract_fails :
  ¬ race_contract Demo.uploadDir Demo.Date_parse ServerJs (Some "ui-1") 0
      (after ServerJs due_now) ∧
  ¬ race_contract Demo.uploadDir Demo.Date_parse Part000 (Some "ui-1") 0
      (after Part000 due_now).
Proof.
  split; intros (_ & H & _).
  - destruct (run ServerJs [TimerFire 0; PostCancel (Some "ui-1"); SendResolved 0]
                (after ServerJs due_now)) as [[rs s']|] eqn:E;
      [|vm_compute in E; discriminate E].
    destruct (H rs s' eq_refl) as [Hrs _].
    vm_compute in E. injection E as <- <-. discriminate Hrs.
  - destruct (run Part000 [TimerFire 0; PostCancel (Some "ui-1"); SendResolved 0]
                (after Part000 due_now)) as [[rs s']|] eqn:E;
      [|vm_compute in E; discriminate E].
    destruct (H rs s' eq_refl) as [Hrs _].
    vm_compute in E. injection E as <- <-. discriminate Hrs.
Qed.

Lemma cancel_against_timer_example :
  (∃ s', run ServerJs [PostCancel (Some "ui-1")] (after ServerJs due_now)
         = Some ([Cancelled ServerJs], s') ∧
         step ServerJs (TimerFire 0) s' = None ∧ emitted s' = []) ∧
  (∃ s', run ServerJs [TimerFire 0; SendResolved 0; PostCancel (Some "ui-1")]
             (after ServerJs due_now)
         = Some ([NotFound ServerJs], s') ∧
         emitted s' = [message_sent (Some "ui-1") None]) ∧
  (∃ s', run ServerJs [TimerFire 0; PostCancel (Some "ui-1"); SendResolved 0]
             (after ServerJs due_now)
         = Some ([Cancelled ServerJs], s') ∧
         emitted s' = [message_sent (Some "ui-1") None]).
Proof.
  destruct (cancel_against_timer Demo.uploadDir Demo.Date_parse ServerJs
              (Some "ui-1") 0
              {| due := 1700000005000;
                 callback := {| cb_path := photo; cb_groupId := Some "grp@x";
                                cb_uiId := Some "ui-1" |} |}
              (after ServerJs due_now))
    as ((sa & Ha & Hoff & Hea & _) & (sb & Hb & Heb & _) & (sc & Hc & Hec & _)).
  - vm_compute. reflexivity.
  - vm_compute. intros [=].
  - reflexivity.
  - vm_compute. reflexivity.
  - apply (bool_decide_unpack _). vm_compute. exact I.
  - split; [|split]; eauto.
Defined.

(** C1 (the code departs from the claim): the timer of "ui-1" fires and
    its send is in flight when cancel("ui-1") is handled.  The entry is
    still in the registry, so cancel answers Cancelled, not NotFound, and
    removes the file; the send then resolves, the [message_sent] event is
    emitted and the file is released a second time.  Both outcomes occur. *)
Theorem C1_cancel_while_sending : ∀ v,
  answers v (due_now ++ [TimerFire 0; PostCancel (Some "ui-1"); SendResolved 0])
  = Some [Scheduled (Some "ui-1"); Cancelled v] ∧
  emitted (after v (due_now ++ [TimerFire 0; PostCancel (Some "ui-1"); SendResolved 0]))
  = [message_sent (Some "ui-1") (sent_status v)] ∧
  delivered (after v (due_now ++ [TimerFire 0; PostCancel (Some "ui-1"); SendResolved 0]))
  = [(Some "grp@x", photo)] ∧
  unlinking (after v (due_now ++ [TimerFire 0; PostCancel (Some "ui-1"); SendResolved 0]))
  = [photo] ∧
  elements (disk (after v (due_now ++ [TimerFire 0; PostCancel (Some "ui-1")]))) = [].
Proof. intros []; vm_compute; repeat split; reflexivity. Qed.

(** C3 (the code departs from the claim): the timer of "ui-1" fires and
    the send rejects.  The error is logged, and the entry of "ui-1" is
    still in the registry, with no timer and no send left that would ever
    remove it; its file stays on disk. *)
Theorem C3_failed_delivery_stays_registered : ∀ v,
  answers v (due_now ++ [TimerFire 0; SendRejected 0 "Error: Session closed"])
  = Some [Scheduled (Some "ui-1")] ∧
  map_to_list
    (scheduledTasks (after v (due_now ++ [TimerFire 0; SendRejected 0 "Error: Session closed"])))
  = [(Some "ui-1", {| timeout := 0; filePath := photo |})] ∧
  map_to_list
    (timers (after v (due_now ++ [TimerFire 0; SendRejected 0 "Error: Session closed"]))) = [] ∧
  map_to_list
    (sending (after v (due_now ++ [TimerFire 0; SendRejected 0 "Error: Session closed"]))) = [] ∧
  errors (after v (due_now ++ [TimerFire 0; SendRejected 0 "Error: Session closed"]))
  = [logged v {| cb_path := photo; cb_groupId := Some "grp@x"; cb_uiId := Some "ui-1" |}
       "Error: Session closed"] ∧
  elements (disk (after v (due_now ++ [TimerFire 0; SendRejected 0 "Error: Session closed"])))
  = [photo] ∧
  unlinking (after v (due_now ++ [TimerFire 0; SendRejected 0 "Error: Session closed"])) = [].
Proof. intros []; vm_compute; repeat split; reflexivity. Qed.

(** C6 (the code departs from the claim): part_000 turns down a request
    that has a file and an empty destination with "Missing required data"
    and does not remove the upload: the file is on disk and no removal is
    pending.  The request for a past time, next to it, has its file
    removed. *)
Theorem C6_missing_field_leaves_upload :
  answers Part000 (Demo.boot ++
    [PostSchedule {| groupId := Some ""; scheduleTime := Demo.ahead;
                     uiId := Some "ui-1"; image := Some "photo.jpg" |}])
  = Some [res_json 400 (body_error "Missing required data")] ∧
  elements (disk (settle (after Part000 (Demo.boot ++
    [PostSchedule {| groupId := Some ""; scheduleTime := Demo.ahead;
                     uiId := Some "ui-1"; image := Some "photo.jpg" |}]))))
  = [photo] ∧
  answers Part000 (Demo.boot ++ [PostSchedule (Demo.request (Some "ui-1") Demo.ago "photo.jpg")])
  = Some [res_json 400 (body_error "Scheduled time is in the past.")] ∧
  elements (disk (settle (after Part000 (Demo.boot ++
    [PostSchedule (Demo.request (Some "ui-1") Demo.ago "photo.jpg")]))))
  = [].
Proof. vm_compute. repeat split; reflexivity. Qed.

(** ** Instances of the further properties *)

(** Two requests under "ui-1"; the timer of the first has fired. *)
#[local] Abbreviation twice := (Demo.boot ++
  [PostSchedule ui1;
   PostSchedule (Demo.request (Some "ui-1") Demo.ahead "other.jpg");
   Tick 5000; TimerFire 0])%list.

(** Two uploads of photo.jpg in one millisecond; the first is cancelled. *)
#[local] Abbreviation shared := (Demo.boot ++
  [PostSchedule ui1;
   PostSchedule (Demo.request (Some "ui-2") Demo.ahead "photo.jpg");
   PostCancel (Some "ui-1"); Tick 5000])%list.

#[local] Abbreviation callback1 :=
  {| cb_path := photo; cb_groupId := Some "grp@x"; cb_uiId := Some "ui-1" |}.

Lemma sends_accounted_witness :
  match run Part000 (due_now ++ [TimerFire 0; SendRejected 0 "Error: Session closed"]) init with
  | Some (_, s) =>
      length (calls s) = (length (delivered s) + length (errors s) + size (sending s))%nat ∧
      length (emitted s) = length (delivered s)
  | None => False
  end.
Proof.
  destruct (run Part000 (due_now ++ [TimerFire 0; SendRejected 0 "Error: Session closed"]) init)
    as [[rs s]|] eqn:E.
  - exact (sends_accounted Demo.uploadDir Demo.Date_parse _ _ _ _ E).
  - vm_compute in E. discriminate E.
Defined.

Lemma sends_bounded_by_accepted_witness :
  match run ServerJs (twice ++ [SendResolved 0]) init with
  | Some (rs, s) =>
      (length (emitted s) ≤ length (calls s))%nat ∧
      (length (calls s) ≤ length (List.filter is_scheduled rs))%nat
  | None => False
  end.
Proof.
  destruct (run ServerJs (twice ++ [SendResolved 0]) init) as [[rs s]|] eqn:E.
  - exact (sends_bounded_by_accepted Demo.uploadDir Demo.Date_parse _ _ _ _ E).
  - vm_compute in E. discriminate E.
Defined.


Lemma cancelled_timer_never_fires_witness :
  is_Some (run ServerJs [PostCancel (Some "ui-1"); Tick 5000;
                         PostCancel (Some "ui-1")]
             (after ServerJs pending)) ∧
  List.filter (is_fire 0) [Tick 5000; PostCancel (Some "ui-1")] = [].
Proof.
  destruct (run ServerJs [PostCancel (Some "ui-1"); Tick 5000;
                          PostCancel (Some "ui-1")]
              (after ServerJs pending))
    as [[rs s]|] eqn:E.
  - split; [eauto|].
    refine (cancelled_timer_never_fires Demo.uploadDir Demo.Date_parse ServerJs
              (Some "ui-1") {| timeout := 0; filePath := photo |} _ _ _ _
              (after_handles_issued _ _ _ _) _ E).
    vm_compute. reflexivity.
  - vm_compute in E. discriminate E.
Defined.

Lemma timer_due_at_triggerAt_witness :
  (post_schedule ServerJs ui1 (after ServerJs Demo.boot)).1 = Scheduled (Some "ui-1") ∧
  timers (post_schedule ServerJs ui1 (after ServerJs Demo.boot)).2 !! 0%nat
  = Some {| due := 1700000005000; callback := closure photo ui1 |}.
Proof.
  destruct (timer_due_at_triggerAt Demo.uploadDir Demo.Date_parse ServerJs ui1
              (after ServerJs Demo.boot) photo 1700000005000) as (H1 & H2 & _).
  - vm_compute. reflexivity.
  - vm_compute. reflexivity.
  - vm_compute. reflexivity.
  - vm_compute. split; intros [=].
  - split; [exact H1|exact H2].
Defined.

Lemma timer_due_at_once_witness :
  timers (post_schedule Part000 (Demo.request (Some "ui-1") Demo.now "photo.jpg")
            (after Part000 Demo.boot)).2 !! 0%nat
  = Some {| due := 1700000000001;
            callback := closure photo (Demo.request (Some "ui-1") Demo.now "photo.jpg") |}.
Proof.
  destruct (timer_due_at_once Demo.uploadDir Demo.Date_parse Part000
              (Demo.request (Some "ui-1") Demo.now "photo.jpg")
              (after Part000 Demo.boot) photo 1700000000000) as (_ & H).
  - vm_compute. reflexivity.
  - vm_compute. reflexivity.
  - vm_compute. reflexivity.
  - left. vm_compute. reflexivity.
  - exact H.
Defined.

Lemma cancel_frame_witness :
  scheduledTasks (post_cancel ServerJs (Some "ui-1") (after ServerJs twice)).2 !! Some "ui-2"
  = scheduledTasks (after ServerJs twice) !! Some "ui-2" ∧
  timers (post_cancel ServerJs (Some "ui-1") (after ServerJs twice)).2 !! 0%nat
  = timers (after ServerJs twice) !! 0%nat ∧
  sending (post_cancel ServerJs (Some "ui-1") (after ServerJs twice)).2
  = sending (after ServerJs twice).
Proof.
  destruct (cancel_frame ServerJs (Some "ui-1")
              {| timeout := 1; filePath := "/usr/src/app/uploads/1700000000000-other.jpg" |}
              (after ServerJs twice)) as (H1 & H2 & _ & H3 & _).
  - vm_compute. reflexivity.
  - split; [apply H1; intros [=]|]. split; [apply H2; intros [=]|exact H3].
Defined.


Lemma schedule_then_cancel_witness :
  ∃ s', run ServerJs [PostSchedule ui1; PostCancel (Some "ui-1")] (after ServerJs Demo.boot)
        = Some ([Scheduled (Some "ui-1"); Cancelled ServerJs], s') ∧
        scheduledTasks s' = scheduledTasks (after ServerJs Demo.boot) ∧
        timers s' = timers (after ServerJs Demo.boot).
Proof.
  destruct (schedule_then_cancel Demo.uploadDir Demo.Date_parse ServerJs ui1
              (after ServerJs Demo.boot) photo) as (s' & H1 & H2 & H3 & _).
  - apply (after_bookkeeping Demo.uploadDir Demo.Date_parse ServerJs Demo.boot).
  - vm_compute. reflexivity.
  - vm_compute. reflexivity.
  - vm_compute. reflexivity.
  - vm_compute. reflexivity.
  - exists s'. split; [exact H1|]. split; [exact H2|exact H3].
Defined.

Lemma fire_without_file_witness :
  ∃ s', step ServerJs (TimerFire 1) (after ServerJs shared) = Some (None, s') ∧
        calls s' = calls (after ServerJs shared) ∧
        emitted s' = emitted (after ServerJs shared).
Proof.
  destruct (fire_without_file Demo.uploadDir Demo.Date_parse ServerJs 1
              {| due := 1700000005000;
                 callback := {| cb_path := photo; cb_groupId := Some "grp@x";
                                cb_uiId := Some "ui-2" |} |}
              (after ServerJs shared))
    as (s' & H1 & _ & _ & _ & H2 & H3 & _).
  - vm_compute. reflexivity.
  - vm_compute. intros [=].
  - apply (bool_decide_eq_false_1 _). vm_compute. reflexivity.
  - exists s'. split; [exact H1|]. split; [exact H2|exact H3].
Defined.

Lemma delivery_orphans_later_task_witness :
  ∃ s', run ServerJs [SendResolved 0; PostCancel (Some "ui-1")] (after ServerJs twice)
        = Some ([NotFound ServerJs], s') ∧
        is_Some (timers s' !! 1%nat).
Proof.
  destruct (delivery_orphans_later_task Demo.uploadDir Demo.Date_parse ServerJs 0
              callback1
              {| timeout := 1; filePath := "/usr/src/app/uploads/1700000000000-other.jpg" |}
              {| due := 1700000005000;
                 callback := {| cb_path := "/usr/src/app/uploads/1700000000000-other.jpg";
                                cb_groupId := Some "grp@x"; cb_uiId := Some "ui-1" |} |}
              (after ServerJs twice))
    as (s' & H1 & _ & H2).
  - vm_compute. reflexivity.
  - vm_compute. reflexivity.
  - vm_compute. reflexivity.
  - exists s'. split; [exact H1|]. eexists. exact H2.
Defined.

Lemma cancel_after_failed_send_witness :
  ∃ s', run Part000 [SendRejected 0 "Error: Session closed"; PostCancel (Some "ui-1")]
          (after Part000 (due_now ++ [TimerFire 0]))
        = Some ([Cancelled Part000], s') ∧
        scheduledTasks s' !! Some "ui-1" = None ∧ (photo ∉ disk s').
Proof.
  destruct (cancel_after_failed_send Demo.uploadDir Demo.Date_parse Part000 0
              callback1 "Error: Session closed"
              {| timeout := 0; filePath := photo |}
              (after Part000 (due_now ++ [TimerFire 0])))
    as (s' & H1 & H2 & H3 & _).
  - vm_compute. reflexivity.
  - vm_compute. reflexivity.
  - exists s'. split; [exact H1|]. split; [exact H2|exact H3].
Defined.

Lemma registry_matches_timers_witness :
  match run ServerJs twice init with
  | Some (_, s) =>
      cb_uiId (callback {| due := 1700000005000;
                           callback := {| cb_path := "/usr/src/app/uploads/1700000000000-other.jpg";
                                          cb_groupId := Some "grp@x";
                                          cb_uiId := Some "ui-1" |} |}) = Some "ui-1"
  | None => False
  end.
Proof.
  destruct (run ServerJs twice init) as [[rs s]|] eqn:E.
  - refine (proj1 (registry_matches_timers Demo.uploadDir Demo.Date_parse ServerJs _ _ _
                     (Some "ui-1")
                     {| timeout := 1; filePath := "/usr/src/app/uploads/1700000000000-other.jpg" |}
                     _ E _ _)).
    + rewrite (run_after _ _ _ _ _ _ E). vm_compute. reflexivity.
    + rewrite (run_after _ _ _ _ _ _ E). vm_compute. reflexivity.
  - vm_compute in E. discriminate E.
Defined.

Lemma upload_paths_collide_witness :
  photo = photo ↔
  1700000000000 = 1700000000000 ∧
  image ui1 = image (Demo.request (Some "ui-2") Demo.ahead "photo.jpg").
Proof.
  apply (upload_paths_collide Demo.uploadDir ui1
           (Demo.request (Some "ui-2") Demo.ahead "photo.jpg")
           1700000000000 1700000000000 photo photo).
  - intros [=].
  - intros [=].
  - vm_compute. reflexivity.
  - vm_compute. reflexivity.
Defined.

Lemma groups_answer_witness :
  groups_body (get_groups ServerJs (client_run [on_qr "2@abc"; on_ready] startup)
                 (resolved [ {| isGroup := true; chat_name := "Family"; chat_id := "1203@g.us" |};
                             {| isGroup := false; chat_name := "Ann"; chat_id := "4915@c.us" |};
                             {| isGroup := true; chat_name := "Work"; chat_id := "1204@g.us" |} ]))
  = groups_json [ {| group_name := "Family"; group_id := "1203@g.us" |};
                  {| group_name := "Work"; group_id := "1204@g.us" |} ].
Proof.
  pose proof (groups_answer ServerJs (client_run [on_qr "2@abc"; on_ready] startup)
                (resolved [ {| isGroup := true; chat_name := "Family"; chat_id := "1203@g.us" |};
                            {| isGroup := false; chat_name := "Ann"; chat_id := "4915@c.us" |};
                            {| isGroup := true; chat_name := "Work"; chat_id := "1204@g.us" |} ])
                eq_refl) as [_ _].
  reflexivity.
Defined.

Lemma scheduled_request_is_delivered_witness :
  ∃ s', run ServerJs [PostSchedule ui1; Tick 5000; TimerFire 0; SendResolved 0]
          (after ServerJs Demo.boot)
        = Some ([Scheduled (Some "ui-1")], s') ∧
        emitted s' = [message_sent (Some "ui-1") None] ∧
        (photo ∉ disk (settle s')).
Proof.
  destruct (scheduled_request_is_delivered Demo.uploadDir Demo.Date_parse ServerJs ui1
              (after ServerJs Demo.boot) photo)
    as (s' & H1 & _ & _ & H2 & _ & _ & H3).
  - vm_compute. reflexivity.
  - vm_compute. reflexivity.
  - vm_compute. reflexivity.
  - exists s'. split; [exact H1|]. split; [exact H2|exact H3].
Defined.

End Examples.
